(** * Sia renter: sector download protocol and chunk repair

    A shallow embedding of

    - [modules/renter/proto/downloader.go]: [Downloader.Sector],
      [Downloader.shutdown], [Downloader.Close], [NewDownloader];
    - the renter's repair path: [managedDownloadLogicalChunkData],
      [managedFetchLogicalChunkData], [managedFetchAndRepairChunk].

    Both are effectful Go code.  Every effect is threaded explicitly: a
    [World] (resp. [Renter.State]) holds the shared objects the code
    mutates through pointers, and a chronological [trace] records each
    externally visible action.  What the remote host, the disk and the
    other renter subsystems answer is supplied per call as a record of
    responses, so the functions below are total and executable. *)

From Stdlib Require Import ZArith Lia List.
From stdpp Require Import gmap strings list.

Open Scope Z_scope.

(** ** Go errors

    A Go [error] value is [option error], [None] being [nil]. *)

Inductive error : Type :=
| errors_New (msg : string)
    (* errors.New(msg), created by the code under study *)
| errors_Extend (err ext : error)
    (* NebulousLabs/errors.Extend(err, ext): err extended with ext *)
| ErrStopResponse
    (* modules.ErrStopResponse: the host closed the loop gracefully *)
| revision_mismatch (detail : string)
    (* an error for which IsRevisionMismatch reports true *)
| collaborator_error (detail : string).
    (* any other error handed back by a collaborator (transport, disk, ...) *)

#[global] Instance error_eq_dec : EqDecision error.
Proof. solve_decision. Defined.

Definition IsRevisionMismatch (e : error) : bool :=
  match e with revision_mismatch _ => true | _ => false end.

Definition byte := Byte.byte.

#[global] Instance byte_eq_dec : EqDecision byte := Byte.byte_eq_dec.

(** Machine integers of the Go code. *)
Definition wrap_uint64 (z : Z) : Z := z mod 2 ^ 64.
Definition wrap_int (z : Z) : Z := (z + 2 ^ 63) mod 2 ^ 64 - 2 ^ 63.

(** ** Package [proto]: the sector downloader *)

Module Proto.

(** *** Collaborator types

    [types.Currency], [types.FileContractRevision],
    [modules.RenterContract], [modules.HostDBEntry] and
    [modules.DownloadAction] are declared outside the files under study;
    only the fields and methods that [downloader.go] touches appear. *)

(** Modelled from the spec: [types.Currency] is an arbitrary-precision
    integer amount (Go's [math/big]); the type and its methods [Mul64],
    [MulFloat], [Cmp], [Add] are not in the sources. *)
Definition Currency : Type := Z.

Definition Mul64 (x : Currency) (y : Z) : Currency := x * y.
Definition Add (x y : Currency) : Currency := x + y.
Definition Cmp (x y : Currency) : Z :=
  match x ?= y with Lt => -1 | Eq => 0 | Gt => 1 end.

(** [Currency.Sub] is not in the sources either, and the spec, for which
    funds never go negative, does not say what comes of taking more out
    of an amount than there is in it.  The method is therefore a
    parameter of the development: every definition below that builds a
    revision takes it as given, and every theorem holds for whatever it
    does. *)
Class CurrencySub : Type := Sub : Currency -> Currency -> Currency.

(** All that is known of [Sub]: where the amount taken is covered, it is
    subtraction. *)
Definition Sub_exact `{!CurrencySub} : Prop :=
  forall x y : Currency, y <= x -> Sub x y = x - y.
(** [x.MulFloat(num/den)]: the product rounded down to an integer. *)
Definition MulFloat (x : Currency) (ratio : Z * Z) : Currency :=
  x * fst ratio / snd ratio.

(** Modelled from the spec: the constant [hostPriceLeeway] is not in the
    sources; the spec and the comment at its use fix it at 0.2%, so
    [1 + hostPriceLeeway] is 1002/1000. *)
Definition one_plus_hostPriceLeeway : Z * Z := (1002, 1000).

Definition Hash : Type := list byte.            (* crypto.Hash *)
Definition FileContractID : Type := N.          (* types.FileContractID *)
Definition SiaPublicKey : Type := string.       (* types.SiaPublicKey *)
Definition Transaction : Type := N.             (* types.Transaction, opaque here *)
Definition SecretKeyT : Type := N.              (* crypto.SecretKey, opaque here *)

Record FileContractRevision : Type := {
  NewRevisionNumber : Z;                        (* uint64 *)
  NewValidProofOutputs : list Currency          (* [0] renter, [1] host *)
}.

#[global] Instance FileContractRevision_eq_dec : EqDecision FileContractRevision.
Proof. solve_decision. Defined.

Record RenterContract : Type := {
  ID : FileContractID;
  HostPublicKey : SiaPublicKey;
  LastRevision : FileContractRevision;
  LastRevisionTxn : Transaction;
  MerkleRoots : list Hash;
  SecretKey : SecretKeyT;
  DownloadSpending : Currency
}.

#[global] Instance RenterContract_eq_dec : EqDecision RenterContract.
Proof. solve_decision. Defined.

(** [modules.RenterContract{}], Go's zero value. *)
Definition RenterContract_zero : RenterContract :=
  {| ID := 0%N; HostPublicKey := ""; LastRevision := {| NewRevisionNumber := 0; NewValidProofOutputs := [] |};
     LastRevisionTxn := 0%N; MerkleRoots := []; SecretKey := 0%N; DownloadSpending := 0 |}.

(** Modelled from the spec: [RenterContract.RenterFunds] is not in the
    sources; the spec calls it the funds remaining in the current
    revision, which is the renter's entry (index 0) of the valid proof
    outputs.  Go would fault on an empty output list; [NewDownloader]
    admits only contracts with exactly two outputs. *)
Definition RenterFunds (c : RenterContract) : Currency :=
  default 0 (NewValidProofOutputs (LastRevision c) !! 0%nat).

(** Modelled from the spec: [newDownloadRevision] is not in the sources.
    The spec describes a revision as funds remaining, proof outputs and a
    version number that strictly increases on every update, the price
    being paid out of the remaining funds: the cost moves from the
    renter's output to the host's and the version is incremented. *)
Definition newDownloadRevision `{!CurrencySub} (current : FileContractRevision)
    (downloadCost : Currency) : FileContractRevision :=
  let outs := NewValidProofOutputs current in
  {| NewRevisionNumber := wrap_uint64 (NewRevisionNumber current + 1);
     NewValidProofOutputs :=
       <[1%nat := Add (default 0 (outs !! 1%nat)) downloadCost]>
         (<[0%nat := Sub (default 0 (outs !! 0%nat)) downloadCost]> outs) |}.

Record HostDBEntry : Type := {
  DownloadBandwidthPrice : Currency
}.

Record DownloadAction : Type := {
  MerkleRoot_ : Hash;
  Offset : Z;
  Length : Z
}.

#[global] Instance DownloadAction_eq_dec : EqDecision DownloadAction.
Proof. solve_decision. Defined.

(** [revisionSaver]: the persistence hook, [nil] when none is installed. *)
Definition revisionSaver : Type := FileContractRevision -> list Hash -> option error.

(** The immutable fields of a [Downloader].  Its [contractSet], [hdb],
    [conn], [closeChan] and [once] are references to shared mutable
    objects and live in the [World]. *)
Record Downloader : Type := {
  contractID : FileContractID;
  host : HostDBEntry;
  SaveFn : option revisionSaver
}.

(** *** Observable actions *)

Inductive Duration : Type :=
| Hour | TwoMinutes
| NegotiateSettingsTime | NegotiateDownloadTime | NegotiateRecentRevisionTime.

Inductive Event : Type :=
| EvExtendDeadline (d : Duration)                       (* extendDeadline(hd.conn, d) *)
| EvStartDownload                                       (* startDownload: settings round-trip *)
| EvSaveFn (rev : FileContractRevision) (roots : list Hash)  (* hd.SaveFn(rev, roots) *)
| EvWriteDownloadAction (a : DownloadAction)            (* encoding.WriteObject of the action *)
| EvNegotiateRevision (rev : FileContractRevision)      (* negotiateRevision: rev signed and sent *)
| EvReadSectors                                         (* encoding.ReadObject of the payload *)
| EvConnClose                                           (* hd.conn.Close() *)
| EvVerifySettings                                      (* verifySettings in shutdown *)
| EvWriteNegotiationStop                                (* modules.WriteNegotiationStop *)
| EvCloseChan                                           (* close(closeChan) *)
| EvDial                                                (* (&net.Dialer{...}).Dial *)
| EvWriteRPCDownload                                    (* WriteObject(conn, modules.RPCDownload) *)
| EvVerifyRecentRevision.                               (* verifyRecentRevision *)

#[global] Instance Duration_eq_dec : EqDecision Duration.
Proof. solve_decision. Defined.

#[global] Instance Event_eq_dec : EqDecision Event.
Proof. solve_decision. Defined.

(** *** The shared state

    Modelled from the spec: [ContractSet] and the [hostDB] interface are
    not in the sources.  The contract set is a registry from contract id
    to contract ([Acquire] looks a contract up, [Return] stores it back);
    the host database keeps success and failure counters per host key.
    The locking done by [Acquire]/[Return] serialises concurrent holders
    and has no sequential effect. *)
Record World : Type := {
  contractSet : gmap FileContractID RenterContract;
  successfulInteractions : gmap SiaPublicKey N;
  failedInteractions : gmap SiaPublicKey N;
  connClosed : bool;          (* hd.conn has been closed *)
  onceDone : bool;            (* hd.once has fired *)
  closeChanClosed : bool;     (* hd.closeChan has been closed *)
  trace : list Event          (* oldest first *)
}.

Definition emit (e : Event) (w : World) : World :=
  {| contractSet := contractSet w;
     successfulInteractions := successfulInteractions w;
     failedInteractions := failedInteractions w;
     connClosed := connClosed w; onceDone := onceDone w;
     closeChanClosed := closeChanClosed w;
     trace := trace w ++ [e] |}.

Definition extendDeadline (d : Duration) (w : World) : World := emit (EvExtendDeadline d) w.

Definition Acquire (id : FileContractID) (w : World) : option RenterContract :=
  contractSet w !! id.

Definition Return (c : RenterContract) (w : World) : World :=
  {| contractSet := <[ID c := c]> (contractSet w);
     successfulInteractions := successfulInteractions w;
     failedInteractions := failedInteractions w;
     connClosed := connClosed w; onceDone := onceDone w;
     closeChanClosed := closeChanClosed w;
     trace := trace w |}.

Definition interactions (m : gmap SiaPublicKey N) (k : SiaPublicKey) : N := default 0%N (m !! k).

Definition IncrementSuccessfulInteractions (k : SiaPublicKey) (w : World) : World :=
  {| contractSet := contractSet w;
     successfulInteractions :=
       <[k := (interactions (successfulInteractions w) k + 1)%N]> (successfulInteractions w);
     failedInteractions := failedInteractions w;
     connClosed := connClosed w; onceDone := onceDone w;
     closeChanClosed := closeChanClosed w;
     trace := trace w |}.

Definition IncrementFailedInteractions (k : SiaPublicKey) (w : World) : World :=
  {| contractSet := contractSet w;
     successfulInteractions := successfulInteractions w;
     failedInteractions :=
       <[k := (interactions (failedInteractions w) k + 1)%N]> (failedInteractions w);
     connClosed := connClosed w; onceDone := onceDone w;
     closeChanClosed := closeChanClosed w;
     trace := trace w |}.

(** [hd.conn.Close()]: closing an already closed connection reports an
    error, it does not fault. *)
Definition conn_Close (w : World) : World * option error :=
  ({| contractSet := contractSet w;
      successfulInteractions := successfulInteractions w;
      failedInteractions := failedInteractions w;
      connClosed := true; onceDone := onceDone w;
      closeChanClosed := closeChanClosed w;
      trace := trace w ++ [EvConnClose] |},
   if connClosed w then Some (collaborator_error "use of closed network connection") else None).

(** What the host and the transport answer during one [Sector] call. *)
Record HostResponses : Type := {
  startDownload_err : option error;
  WriteObject_err : option error;
  negotiateRevision_ret : Transaction * option error;
  ReadObject_ret : error + list (list byte)
}.

(** The three results of [Sector]: contract, payload ([None] is a nil
    slice), error. *)
Definition Result : Type := (RenterContract * option (list byte) * option error)%type.

Definition failure (e : error) : Result := (RenterContract_zero, None, Some e).

Definition result_err (r : Result) : option error := snd r.
Definition result_payload (r : Result) : option (list byte) := snd (fst r).

(** *** [Downloader.Sector] *)

Section Sector.

(** [modules.SectorSize] (a build-dependent [uint64] constant) and
    [crypto.MerkleRoot] are declared outside the sources and are taken as
    parameters. *)
Variable SectorSize : Z.
Variable MerkleRoot : list byte -> Hash.
Context {currencySub : CurrencySub}.

(** Lines 92-124: everything after the reputation update has been
    deferred.  Returns the final value of the local variable [contract],
    the results, and whether [hd.conn.Close()] was deferred because the
    host answered with [ErrStopResponse]. *)
Definition Sector_exchange (root : Hash) (contract : RenterContract)
    (rev : FileContractRevision) (sectorPrice : Currency)
    (io : HostResponses) (w : World) : World * RenterContract * Result * bool :=
  (* send the revision to the host for approval *)
  let w := extendDeadline TwoMinutes w in
  let w := emit (EvNegotiateRevision rev) w in
  let signedTxn := fst (negotiateRevision_ret io) in
  let err := snd (negotiateRevision_ret io) in
  let stop := bool_decide (err = Some ErrStopResponse) in
  match (if stop then None else err) with
  | Some e => (w, contract, failure e, stop)
  | None =>
    (* read sector data, completing one iteration of the download loop *)
    let w := extendDeadline NegotiateDownloadTime w in
    let w := emit EvReadSectors w in
    match ReadObject_ret io with
    | inl e => (w, contract, failure e, stop)
    | inr sectors =>
      if negb (length sectors =? 1)%nat then
        (w, contract, failure (errors_New "host did not send enough sectors"), stop)
      else
        let sector := nth 0 sectors [] in
        if negb (Z.of_nat (length sector) =? SectorSize) then
          (w, contract, failure (errors_New "host did not send enough sector data"), stop)
        else if negb (bool_decide (MerkleRoot sector = root)) then
          (w, contract, failure (errors_New "host sent bad sector data"), stop)
        else
          (* update contract and metrics *)
          let contract :=
            {| ID := ID contract; HostPublicKey := HostPublicKey contract;
               LastRevision := rev;
               LastRevisionTxn := signedTxn;
               MerkleRoots := MerkleRoots contract; SecretKey := SecretKey contract;
               DownloadSpending := Add (DownloadSpending contract) sectorPrice |} in
          (w, contract, (contract, Some sector, None), stop)
    end
  end.

(** Lines 43-124, run with the contract acquired.  Returns the final
    value of the local variable [contract] (what the deferred [Return]
    hands back to the set) and the results. *)
Definition Sector_acquired (hd : Downloader) (io : HostResponses) (root : Hash)
    (contract : RenterContract) (w : World) : World * RenterContract * Result :=
  (* calculate price *)
  let sectorPrice := Mul64 (DownloadBandwidthPrice (host hd)) SectorSize in
  if Cmp (RenterFunds contract) sectorPrice <? 0 then
    (w, contract, failure (errors_New "contract has insufficient funds to support download"))
  else
    let sectorPrice := MulFloat sectorPrice one_plus_hostPriceLeeway in
    (* create the download revision *)
    let rev := newDownloadRevision (LastRevision contract) sectorPrice in
    (* initiate download by confirming host settings *)
    let w := extendDeadline NegotiateSettingsTime w in
    let w := emit EvStartDownload w in
    match startDownload_err io with
    | Some e => (w, contract, failure e)
    | None =>
      (* Before we continue, save the revision. *)
      let saved :=
        match SaveFn hd with
        | Some save => (emit (EvSaveFn rev (MerkleRoots contract)) w, save rev (MerkleRoots contract))
        | None => (w, None)
        end in
      match snd saved with
      | Some e => (fst saved, contract, failure e)
      | None =>
        (* send download action *)
        let w := extendDeadline TwoMinutes (fst saved) in
        let w := emit (EvWriteDownloadAction
                         {| MerkleRoot_ := root; Offset := 0; Length := SectorSize |}) w in
        match WriteObject_err io with
        | Some e => (w, contract, failure e)
        | None =>
          let '(w, contract, res, stop) := Sector_exchange root contract rev sectorPrice io w in
          (* deferred, last registered first: hd.conn.Close() when the host stopped *)
          let w := if stop then fst (conn_Close w) else w in
          (* deferred: Increase Successful/Failed interactions accordingly *)
          let w := match result_err res with
                   | Some _ => IncrementFailedInteractions (HostPublicKey contract) w
                   | None => IncrementSuccessfulInteractions (HostPublicKey contract) w
                   end in
          (w, contract, res)
        end
      end
    end.

Definition Sector (hd : Downloader) (io : HostResponses) (root : Hash) (w : World)
  : World * Result :=
  (* Acquire the contract. *)
  match Acquire (contractID hd) w with
  | None =>
    (* deferred: extendDeadline(hd.conn, time.Hour) *)
    (extendDeadline Hour w, failure (errors_New "contract not present in contract set"))
  | Some contract =>
    let '(w, contract, res) := Sector_acquired hd io root contract w in
    (* deferred: hd.contractSet.Return(contract), then the deadline reset *)
    (extendDeadline Hour (Return contract w), res)
  end.

(** The price a call charges: the bandwidth price of a whole sector,
    inflated by the leeway (the second value of [sectorPrice]). *)
Definition sector_price (hd : Downloader) : Currency :=
  MulFloat (Mul64 (DownloadBandwidthPrice (host hd)) SectorSize) one_plus_hostPriceLeeway.

(** The funds test of line 45, on the uninflated price. *)
Definition funds_suffice (hd : Downloader) (contract : RenterContract) : bool :=
  negb (Cmp (RenterFunds contract) (Mul64 (DownloadBandwidthPrice (host hd)) SectorSize) <? 0).

(** What the persistence hook answers for this call ([None] when no hook
    is installed). *)
Definition hook_answer (hd : Downloader) (contract : RenterContract) : option error :=
  match SaveFn hd with
  | Some save => save (newDownloadRevision (LastRevision contract) (sector_price hd))
                      (MerkleRoots contract)
  | None => None
  end.

(** The call gets as far as line 84, where the reputation update is
    deferred: funds suffice, the settings round-trip, the hook and the
    sending of the download action all succeed. *)
Definition reaches_exchange (hd : Downloader) (io : HostResponses) (contract : RenterContract)
  : bool :=
  funds_suffice hd contract
  && bool_decide (startDownload_err io = None)
  && bool_decide (hook_answer hd contract = None)
  && bool_decide (WriteObject_err io = None).

(** The call gets as far as reading the payload (line 107): the host
    countersigned the revision or stopped gracefully. *)
Definition reaches_payload (hd : Downloader) (io : HostResponses) (contract : RenterContract)
  : bool :=
  reaches_exchange hd io contract
  && (bool_decide (snd (negotiateRevision_ret io) = None)
      || bool_decide (snd (negotiateRevision_ret io) = Some ErrStopResponse)).

(** The contract a successful call commits (lines 120-122). *)
Definition committed (hd : Downloader) (io : HostResponses) (contract : RenterContract)
  : RenterContract :=
  {| ID := ID contract; HostPublicKey := HostPublicKey contract;
     LastRevision := newDownloadRevision (LastRevision contract) (sector_price hd);
     LastRevisionTxn := fst (negotiateRevision_ret io);
     MerkleRoots := MerkleRoots contract; SecretKey := SecretKey contract;
     DownloadSpending := Add (DownloadSpending contract) (sector_price hd) |}.

(** The state in which the revision exchange starts: the events of
    lines 55-78 have happened. *)
Definition before_exchange (hd : Downloader) (root : Hash) (contract : RenterContract)
    (w : World) : World :=
  let w := extendDeadline NegotiateSettingsTime w in
  let w := emit EvStartDownload w in
  let w := match SaveFn hd with
           | Some _ => emit (EvSaveFn (newDownloadRevision (LastRevision contract) (sector_price hd))
                                      (MerkleRoots contract)) w
           | None => w
           end in
  let w := extendDeadline TwoMinutes w in
  emit (EvWriteDownloadAction {| MerkleRoot_ := root; Offset := 0; Length := SectorSize |}) w.

(** The errors [Sector] creates itself, in the order of the source. *)
Definition Sector_errors : list error :=
  [ errors_New "contract not present in contract set";
    errors_New "contract has insufficient funds to support download";
    errors_New "host did not send enough sectors";
    errors_New "host did not send enough sector data";
    errors_New "host sent bad sector data" ].

(** The reputation rule as the specification words it: a nil error
    moves the success counter, a non-nil error the failure counter, and a
    revision-mismatch error neither. *)
Definition reputation_as_specified (hd : Downloader) (io : HostResponses) (root : Hash)
    (w : World) (k : SiaPublicKey) : Prop :=
  let w' := fst (Sector hd io root w) in
  let moved (m m' : gmap SiaPublicKey N) := m' = <[k := (interactions m k + 1)%N]> m in
  match result_err (snd (Sector hd io root w)) with
  | None =>
    moved (successfulInteractions w) (successfulInteractions w') /\
    failedInteractions w' = failedInteractions w
  | Some e =>
    if IsRevisionMismatch e then
      successfulInteractions w' = successfulInteractions w /\
      failedInteractions w' = failedInteractions w
    else
      moved (failedInteractions w) (failedInteractions w') /\
      successfulInteractions w' = successfulInteractions w
  end.

(** The funds rule as the specification words it: a contract whose
    funds are below the inflated price is turned away. *)
Definition funds_check_as_specified (hd : Downloader) (io : HostResponses) (root : Hash)
    (w : World) (contract : RenterContract) : Prop :=
  contractSet w !! contractID hd = Some contract ->
  RenterFunds contract < sector_price hd ->
  snd (Sector hd io root w) =
    failure (errors_New "contract has insufficient funds to support download").

(** The persistence rule as the specification words it: the hook
    receives the contract's current revision and merkle roots before the
    new revision is sent. *)
Definition hook_as_specified (hd : Downloader) (io : HostResponses) (root : Hash)
    (w : World) (contract : RenterContract) : Prop :=
  forall rev before after,
    trace (fst (Sector hd io root w)) = before ++ EvNegotiateRevision rev :: after ->
    EvSaveFn (LastRevision contract) (MerkleRoots contract) ∈ before.

(** The prices of the calls of a run that returned a nil error, and of
    all its calls. *)
Fixpoint spent (calls : list (Downloader * HostResponses * Hash)) (rs : list Result)
  : Currency :=
  match calls, rs with
  | (hd, _, _) :: calls', r :: rs' =>
    (if bool_decide (result_err r = None) then sector_price hd else 0) + spent calls' rs'
  | _, _ => 0
  end.

Fixpoint total_price (calls : list (Downloader * HostResponses * Hash)) : Currency :=
  match calls with
  | (hd, _, _) :: calls' => sector_price hd + total_price calls'
  | [] => 0
  end.

(** A run of [Sector] calls on one shared state, each with its own
    downloader fields, host answers and requested root. *)
Fixpoint Sector_calls (calls : list (Downloader * HostResponses * Hash)) (w : World)
  : World * list Result :=
  match calls with
  | [] => (w, [])
  | (hd, io, root) :: rest =>
    let '(w1, r) := Sector hd io root w in
    let '(w2, rs) := Sector_calls rest w1 in
    (w2, r :: rs)
  end.

End Sector.

(** *** [Downloader.shutdown] and [Downloader.Close] *)

Inductive outcome (A : Type) : Type :=
| Returned (a : A)       (* the call returned a *)
| Panicked.              (* the call faulted (Go panic) *)
Arguments Returned {A} a.
Arguments Panicked {A}.

(** [close(closeChan)] on a channel that is still open. *)
Definition close_closeChan (w : World) : World :=
  {| contractSet := contractSet w;
     successfulInteractions := successfulInteractions w;
     failedInteractions := failedInteractions w;
     connClosed := connClosed w; onceDone := onceDone w;
     closeChanClosed := true;
     trace := trace w ++ [EvCloseChan] |}.

(** [shutdown]: the two network errors are ignored; [close] of an already
    closed channel is a Go run-time panic.  The boolean tells whether it
    panicked. *)
Definition shutdown (w : World) : World * bool :=
  let w := extendDeadline NegotiateSettingsTime w in
  let w := emit EvVerifySettings w in
  let w := emit EvWriteNegotiationStop w in
  if closeChanClosed w then (w, true) else (close_closeChan w, false).

(** [hd.once.Do(f)]: runs [f] on the first call only; the guard is set
    whether or not [f] panics. *)
Definition once_Do (f : World -> World * bool) (w : World) : World * bool :=
  if onceDone w then (w, false)
  else
    f {| contractSet := contractSet w;
         successfulInteractions := successfulInteractions w;
         failedInteractions := failedInteractions w;
         connClosed := connClosed w; onceDone := true;
         closeChanClosed := closeChanClosed w;
         trace := trace w |}.

Definition Close (w : World) : World * outcome (option error) :=
  (* using once ensures that Close is idempotent *)
  let '(w, panicked) := once_Do shutdown w in
  if panicked then (w, Panicked)
  else let '(w, err) := conn_Close w in (w, Returned err).

(** [n] calls of [Close] in a row; a panic ends the run. *)
Fixpoint Close_times (n : nat) (w : World) : World * list (outcome (option error)) :=
  match n with
  | O => (w, [])
  | S n' =>
    match Close w with
    | (w1, Panicked) => (w1, [Panicked])
    | (w1, Returned e) =>
      let '(w2, rs) := Close_times n' w1 in (w2, Returned e :: rs)
    end
  end.

(** The actions of [shutdown], in order. *)
Definition shutdown_events : list Event :=
  [EvExtendDeadline NegotiateSettingsTime; EvVerifySettings; EvWriteNegotiationStop; EvCloseChan].

(** How often an action occurs in a trace. *)
Definition occurrences (e : Event) (l : list Event) : nat := count_occ Event_eq_dec l e.

(** The state [NewDownloader] hands over on success: connection and
    channel open, guard unused. *)
Definition fresh_session (w : World) : World :=
  {| contractSet := contractSet w;
     successfulInteractions := successfulInteractions w;
     failedInteractions := failedInteractions w;
     connClosed := false; onceDone := false; closeChanClosed := false;
     trace := trace w |}.

(** *** [NewDownloader] *)

(** What the network and the host answer during construction. *)
Record DialResponses : Type := {
  Dial_err : option error;
  WriteRPC_err : option error;
  verifyRecentRevision_err : option error
}.

Section Construction.

Variable SectorSize : Z.
(** [err.Error()], the message text of an error value; the texts of the
    collaborators' errors are not fixed here. *)
Variable Error : error -> string.

(** Lines 170-210, run once the reputation update has been deferred.
    The goroutine started at line 180 only waits for the caller's
    [cancel] signal or for [closeChan]; it takes no step in a run without
    cancellation and is left out. *)
Definition NewDownloader_dial (host : HostDBEntry) (id : FileContractID)
    (io : DialResponses) (w : World) : World * option Downloader * option error :=
  (* initiate download loop *)
  let w := emit EvDial w in
  match Dial_err io with
  | Some e => (w, None, Some e)
  | None =>
    (* a new connection, a new channel, an unused guard *)
    let w := fresh_session w in
    (* allot 2 minutes for RPC request + revision exchange *)
    let w := extendDeadline NegotiateRecentRevisionTime w in
    let w := emit EvWriteRPCDownload w in
    match WriteRPC_err io with
    | Some e =>
      let w := fst (conn_Close w) in
      let w := close_closeChan w in
      (extendDeadline Hour w, None,
       Some (errors_New ("couldn't initiate RPC: " +:+ Error e)))
    | None =>
      let w := emit EvVerifyRecentRevision w in
      match verifyRecentRevision_err io with
      | Some e =>
        let w := fst (conn_Close w) in
        let w := close_closeChan w in
        (extendDeadline Hour w, None, Some e)
      | None =>
        (* the host is now ready to accept revisions *)
        (extendDeadline Hour w,
         Some {| contractID := id; host := host; SaveFn := None |}, None)
      end
    end
  end.

Definition NewDownloader (host : HostDBEntry) (id : FileContractID)
    (io : DialResponses) (w : World) : World * option Downloader * option error :=
  match contractSet w !! id with            (* contractSet.View(id) *)
  | None => (w, None, Some (errors_New "invalid contract"))
  | Some contract =>
    (* check that contract has enough value to support a download *)
    if negb (List.length (NewValidProofOutputs (LastRevision contract)) =? 2)%nat then
      (w, None, Some (errors_New "invalid contract"))
    else
      let sectorPrice := Mul64 (DownloadBandwidthPrice host) SectorSize in
      if Cmp (RenterFunds contract) sectorPrice <? 0 then
        (w, None, Some (errors_New "contract has insufficient funds to support download"))
      else
        let '(w, hd, err) := NewDownloader_dial host id io w in
        (* deferred: Increase Successful/Failed interactions accordingly *)
        let w := match err with
                 | Some e =>
                   (* A revision mismatch might not be the host's fault. *)
                   if IsRevisionMismatch e then w
                   else IncrementFailedInteractions (HostPublicKey contract) w
                 | None => IncrementSuccessfulInteractions (HostPublicKey contract) w
                 end in
        (w, hd, err)
  end.

End Construction.

End Proto.

(** ** A downloader session as its caller drives it

    The caller of the package holds one [Downloader] and calls [Sector]
    and [Close] on it in any order; the contract set and the host
    database are shared with the rest of the renter. *)

Module Session.
Import Proto.

(** Every contract of the set is filed under its own id: [Return] files
    a contract under [contract.ID], [Acquire] looks it up by the id
    asked for. *)
Definition ContractSet_wf (w : World) : Prop :=
  forall id c, contractSet w !! id = Some c -> ID c = id.

(** The guard and the channel of a session: the channel is closed by
    [shutdown] only, under the guard. *)
Definition guard_covers_channel (w : World) : Prop :=
  onceDone w = false -> closeChanClosed w = false.

Inductive Op : Type :=
| OpSector (hd : Downloader) (io : HostResponses) (root : Hash)   (* hd.Sector(root) *)
| OpClose.                                                        (* hd.Close() *)

(** The same answers of the host with another outcome of the revision
    negotiation. *)
Definition with_negotiation_err (io : HostResponses) (err : option error) : HostResponses :=
  {| startDownload_err := startDownload_err io; WriteObject_err := WriteObject_err io;
     negotiateRevision_ret := (fst (negotiateRevision_ret io), err);
     ReadObject_ret := ReadObject_ret io |}.

Section Ops.

Variable SectorSize : Z.
Variable MerkleRoot : list byte -> Hash.
Context {currencySub : CurrencySub}.

(** A sequence of calls; the boolean tells whether one of them faulted,
    which ends the run. *)
Fixpoint run_ops (ops : list Op) (w : World) : World * bool :=
  match ops with
  | [] => (w, false)
  | OpSector hd io root :: ops' =>
    run_ops ops' (fst (Sector SectorSize MerkleRoot hd io root w))
  | OpClose :: ops' =>
    match Close w with
    | (w1, Panicked) => (w1, true)
    | (w1, Returned _) => run_ops ops' w1
    end
  end.

(** The actions of one complete exchange, in the order of the source
    (lines 56-107). *)
Definition protocol_events (hd : Downloader) (root : Hash) (contract : RenterContract)
  : list Event :=
  let rev := newDownloadRevision (LastRevision contract) (sector_price SectorSize hd) in
  [EvExtendDeadline NegotiateSettingsTime; EvStartDownload]
  ++ match SaveFn hd with
     | Some _ => [EvSaveFn rev (MerkleRoots contract)]
     | None => []
     end
  ++ [EvExtendDeadline TwoMinutes;
      EvWriteDownloadAction {| MerkleRoot_ := root; Offset := 0; Length := SectorSize |};
      EvExtendDeadline TwoMinutes;
      EvNegotiateRevision rev;
      EvExtendDeadline NegotiateDownloadTime;
      EvReadSectors].

(** The host answered the revision with [ErrStopResponse], in a call
    that got that far. *)
Definition stopped_gracefully (hd : Downloader) (io : HostResponses) (contract : RenterContract)
  : bool :=
  reaches_exchange SectorSize hd io contract
  && bool_decide (snd (negotiateRevision_ret io) = Some ErrStopResponse).

End Ops.

End Session.

(** ** Package [renter]: fetching and repairing a chunk *)

Module Renter.

(** Modelled from the spec: the declaration of [unfinishedChunk] is not
    in the sources.  The fields are the ones the three functions use;
    [offset] is an [int64] and [length] a [uint64] (the code converts the
    former and not the latter when it queues a download), the piece
    counts are Go [int]s.  A nil slice and an empty slice are both [[]]:
    the code only ever takes their [len]. *)
Record unfinishedChunk : Type := {
  localPath : string;
  offset : Z;
  length : Z;
  minimumPieces : Z;
  piecesNeeded : Z;
  piecesCompleted : Z;
  pieceUsage : list bool;
  logicalChunkData : list byte;
  physicalChunkData : list (list byte)
}.

Definition set_logicalChunkData (data : list byte) (c : unfinishedChunk) : unfinishedChunk :=
  {| localPath := localPath c; offset := offset c; length := length c;
     minimumPieces := minimumPieces c; piecesNeeded := piecesNeeded c;
     piecesCompleted := piecesCompleted c; pieceUsage := pieceUsage c;
     logicalChunkData := data; physicalChunkData := physicalChunkData c |}.

Definition set_physicalChunkData (pieces : list (list byte)) (c : unfinishedChunk)
  : unfinishedChunk :=
  {| localPath := localPath c; offset := offset c; length := length c;
     minimumPieces := minimumPieces c; piecesNeeded := piecesNeeded c;
     piecesCompleted := piecesCompleted c; pieceUsage := pieceUsage c;
     logicalChunkData := logicalChunkData c; physicalChunkData := pieces |}.

Definition worker : Type := N.

Inductive Event : Type :=
| EvNewSectionDownload (offset length : Z)   (* r.newSectionDownload: network download queued *)
| EvOpen (path : string)                     (* os.Open *)
| EvReadAt (path : string) (offset : Z) (n : nat)   (* osFile.ReadAt into a buffer of n bytes *)
| EvEncode                                   (* erasureCode.Encode *)
| EvLogDebug (msg : string) (err : error)    (* r.log.Debugln *)
| EvLogCritical (msg : string)               (* r.log.Critical *)
| EvMemoryAvailableAdd (amount : Z)          (* r.managedMemoryAvailableAdd *)
| EvQueueChunkRepair (w : worker).           (* worker.queueChunkRepair(chunk) *)

#[global] Instance Event_eq_dec : EqDecision Event.
Proof. solve_decision. Defined.

(** How the wait in [managedDownloadLogicalChunkData] ends. *)
Inductive DownloadOutcome : Type :=
| DownloadFinished (data : list byte) (err : option error)
    (* d.downloadFinished fired: buf.Bytes() and d.Err() *)
| StopCalled.
    (* r.tg.StopChan() fired first *)

(** What the collaborators answer during one repair: the download
    subsystem, the local disk, the file's erasure coder, and the worker
    pool at the time of the fan-out. *)
Record Env : Type := {
  download_outcome : DownloadOutcome;
  os_Open : string -> option error;
  file_ReadAt : string -> Z -> nat -> list byte * option error;
      (* the bytes read (at most the buffer's size) and the error *)
  erasureCode_Encode : list byte -> list (list byte) * option error;
  workerPool : list worker
}.

(** Modelled from the spec: the memory accountant is a shared counter
    that this code only credits ([managedMemoryAvailableAdd] is not in
    the sources). *)
Record State : Type := {
  memoryAvailable : Z;
  trace : list Event        (* oldest first *)
}.

Definition emit (e : Event) (s : State) : State :=
  {| memoryAvailable := memoryAvailable s; trace := trace s ++ [e] |}.

Definition managedMemoryAvailableAdd (amount : Z) (s : State) : State :=
  {| memoryAvailable := wrap_uint64 (memoryAvailable s + amount);
     trace := trace s ++ [EvMemoryAvailableAdd amount] |}.

(** [managedDownloadLogicalChunkData] *)
Definition managedDownloadLogicalChunkData (env : Env) (chunk : unfinishedChunk) (s : State)
  : State * unfinishedChunk * option error :=
  let s := emit (EvNewSectionDownload (wrap_uint64 (offset chunk)) (length chunk)) s in
  match download_outcome env with
  | StopCalled => (s, chunk, Some (errors_New "repair download interrupted by stop call"))
  | DownloadFinished data err => (s, set_logicalChunkData data chunk, err)
  end.

(** [osFile.ReadAt(buf, off)] overwrites the first bytes of [buf] with
    the bytes read. *)
Definition read_into (buf data : list byte) : list byte :=
  take (List.length buf) data ++ drop (List.length data) buf.

(** [managedFetchLogicalChunkData] *)
Definition managedFetchLogicalChunkData (env : Env) (chunk : unfinishedChunk)
    (download : bool) (s : State) : State * unfinishedChunk * option error :=
  (* Download the chunk if it's not on disk. *)
  if bool_decide (localPath chunk = "") && download then
    managedDownloadLogicalChunkData env chunk s
  else if bool_decide (localPath chunk = "") then
    (s, chunk, Some (errors_New "file not available locally"))
  else
    (* Try to read the data from disk. *)
    let chunk := set_logicalChunkData (replicate (Z.to_nat (length chunk)) Byte.x00) chunk in
    let s := emit (EvOpen (localPath chunk)) s in
    match os_Open env (localPath chunk) with
    | Some err =>
      if download then
        managedDownloadLogicalChunkData env (set_logicalChunkData [] chunk) s
      else
        (s, chunk, Some (errors_Extend err (errors_New "failed to open file locally")))
    | None =>
      let n := List.length (logicalChunkData chunk) in
      let s := emit (EvReadAt (localPath chunk) (offset chunk) n) s in
      let '(data, err) := file_ReadAt env (localPath chunk) (offset chunk) n in
      let chunk := set_logicalChunkData (read_into (logicalChunkData chunk) data) chunk in
      match err with
      | Some err =>
        if download then
          managedDownloadLogicalChunkData env (set_logicalChunkData [] chunk) s
        else
          (s, chunk, Some (errors_Extend err (errors_New "failed to read file locally")))
      | None =>
        (* Data successfully read from disk. *)
        (s, chunk, None)
      end
    end.

(** The first two lines of [managedFetchAndRepairChunk]: only download
    this file if more than 25% of the redundancy is missing.  Go's [/] on
    [int] truncates toward zero ([Z.quot]); [+] and [-] wrap. *)
Definition minMissingPiecesToDownload (chunk : unfinishedChunk) : Z :=
  Z.quot (wrap_int (piecesNeeded chunk - minimumPieces chunk)) 4.

Definition download_decision (chunk : unfinishedChunk) : bool :=
  wrap_int (piecesCompleted chunk + minMissingPiecesToDownload chunk) <? piecesNeeded chunk.

(** One iteration of the loop over [pieceUsage]: a piece already in use
    is dropped and its size added to [memoryFreed]. *)
Definition release_piece (usage : list bool) (acc : list (list byte) * Z) (i : nat)
  : list (list byte) * Z :=
  if default false (usage !! i) then
    (<[i := []]> (fst acc),
     wrap_uint64 (snd acc + Z.of_nat (List.length (default [] (fst acc !! i)))))
  else acc.

Definition release_used_pieces (usage : list bool) (pieces : list (list byte)) (memoryFreed : Z)
  : list (list byte) * Z :=
  foldl (release_piece usage) (pieces, memoryFreed) (seq 0 (List.length usage)).

(** What the loop is meant to compute, by recursion on the flags and the
    pieces side by side: flagged pieces emptied, and their sizes summed. *)
Fixpoint drop_used (usage : list bool) (pieces : list (list byte)) : list (list byte) :=
  match usage, pieces with
  | u :: usage', p :: pieces' => (if u then [] else p) :: drop_used usage' pieces'
  | _, _ => pieces
  end.

Fixpoint used_bytes (usage : list bool) (pieces : list (list byte)) : Z :=
  match usage, pieces with
  | u :: usage', p :: pieces' =>
    (if u then Z.of_nat (List.length p) else 0) + used_bytes usage' pieces'
  | _, _ => 0
  end.

Definition queue_all (workers : list worker) (s : State) : State :=
  foldl (fun s w => emit (EvQueueChunkRepair w) s) s workers.

(** [managedFetchAndRepairChunk], lines 82-121: what is done with the
    outcome of the fetch.  The chunk is mutated in place; its final value
    is returned. *)
Definition repair_fetched (env : Env) (fetched : State * unfinishedChunk * option error)
  : State * unfinishedChunk :=
  let '(s, chunk, err) := fetched in
  match err with
  | Some err =>
    (* Logical data is not available, nothing to do. *)
    (emit (EvLogDebug "Fetching logical data of a chunk failed:" err) s, chunk)
  | None =>
    (* Create the physical pieces for the data. *)
    let s := emit EvEncode s in
    let '(pieces, err) := erasureCode_Encode env (logicalChunkData chunk) in
    let chunk := set_physicalChunkData pieces chunk in
    match err with
    | Some err =>
      (emit (EvLogDebug "Fetching physical data of a chunk failed:" err) s, chunk)
    | None =>
      (* Nil out the logical chunk data so that it can be garbage collected. *)
      let memoryFreed := Z.of_nat (List.length (logicalChunkData chunk)) in
      let chunk := set_logicalChunkData [] chunk in
      (* Sanity check *)
      if (List.length (physicalChunkData chunk) <? List.length (pieceUsage chunk))%nat then
        (emit (EvLogCritical "not enough physical pieces to match the upload settings of the file") s,
         chunk)
      else
        let '(pieces, memoryFreed) :=
          release_used_pieces (pieceUsage chunk) (physicalChunkData chunk) memoryFreed in
        let chunk := set_physicalChunkData pieces chunk in
        (* Update the renter to indicate how much memory was freed. *)
        let s := managedMemoryAvailableAdd memoryFreed s in
        (* Distribute the chunk to all of the workers. *)
        (queue_all (workerPool env) s, chunk)
    end
  end.

(** [managedFetchAndRepairChunk] *)
Definition managedFetchAndRepairChunk (env : Env) (chunk : unfinishedChunk) (s : State)
  : State * unfinishedChunk :=
  (* Only download this file if more than 25% of the redundancy is missing. *)
  let download := download_decision chunk in
  (* Fetch the logical data for the chunk. *)
  repair_fetched env (managedFetchLogicalChunkData env chunk download s).

(** The loop of lines 107-112 with Go's bounds checks written out:
    [chunk.pieceUsage[i]] and [chunk.physicalChunkData[i]] panic when
    [i] is out of range, which is [None] here and ends the loop. *)
Definition release_piece_checked (usage : list bool)
    (acc : option (list (list byte) * Z)) (i : nat) : option (list (list byte) * Z) :=
  match acc with
  | None => None
  | Some acc =>
    match usage !! i with
    | None => None
    | Some false => Some acc
    | Some true =>
      match fst acc !! i with
      | None => None
      | Some piece =>
        Some (<[i := []]> (fst acc), wrap_uint64 (snd acc + Z.of_nat (List.length piece)))
      end
    end
  end.

Definition release_used_pieces_checked (usage : list bool) (pieces : list (list byte))
    (memoryFreed : Z) : option (list (list byte) * Z) :=
  foldl (release_piece_checked usage) (Some (pieces, memoryFreed)) (seq 0 (List.length usage)).

(** The two kinds of action a repair can end with: a message in the log,
    or the hand-over (memory credited, chunk queued with the workers). *)
Definition is_log (e : Event) : bool :=
  match e with
  | EvLogDebug _ _ | EvLogCritical _ => true
  | _ => false
  end.

Definition is_distribution (e : Event) : bool :=
  match e with
  | EvMemoryAvailableAdd _ | EvQueueChunkRepair _ => true
  | _ => false
  end.

(** The repair goes through: the fetch and the encoding return no error
    and the encoder returned at least as many pieces as there are
    piece-usage flags. *)
Definition repair_goes_through (env : Env) (chunk : unfinishedChunk) (s : State) : bool :=
  let fetched := managedFetchLogicalChunkData env chunk (download_decision chunk) s in
  let encoded := erasureCode_Encode env (logicalChunkData (snd (fst fetched))) in
  bool_decide (snd fetched = None) && bool_decide (snd encoded = None)
  && (List.length (pieceUsage chunk) <=? List.length (fst encoded))%nat.

End Renter.

(** ** Concrete scenarios

    Small closed inputs on which the definitions above are run. *)

Module Scenario.
Import Proto.

Definition SectorSize0 : Z := 4.
(** A stand-in for [crypto.MerkleRoot]: any function of the payload will do. *)
Definition MerkleRoot0 (sector : list byte) : Hash := rev sector.
(** A stand-in for [Currency.Sub]: subtraction that stops at zero. *)
Definition Sub0 : CurrencySub := fun x y => Z.max 0 (x - y).

Definition sector0 : list byte := [Byte.x01; Byte.x02; Byte.x03; Byte.x04].
Definition root0 : Hash := MerkleRoot0 sector0.

Definition revision0 : FileContractRevision :=
  {| NewRevisionNumber := 5; NewValidProofOutputs := [10000; 200] |}.

Definition contract0 : RenterContract :=
  {| ID := 7%N; HostPublicKey := "host-1"; LastRevision := revision0;
     LastRevisionTxn := 0%N; MerkleRoots := [[Byte.x0a]]; SecretKey := 1%N;
     DownloadSpending := 30 |}.

Definition world_with (c : RenterContract) : World :=
  {| contractSet := {[ ID c := c ]};
     successfulInteractions := ∅; failedInteractions := ∅;
     connClosed := false; onceDone := false; closeChanClosed := false;
     trace := [] |}.

Definition world0 : World := world_with contract0.

(** A downloader for contract 7 on a host charging 1000 per byte, with a
    persistence hook that always succeeds. *)
Definition hd0 : Downloader :=
  {| contractID := 7%N; host := {| DownloadBandwidthPrice := 1000 |};
     SaveFn := Some (fun _ _ => None) |}.

(** The same downloader without a persistence hook. *)
Definition hd_nohook : Downloader :=
  {| contractID := 7%N; host := {| DownloadBandwidthPrice := 1000 |}; SaveFn := None |}.

(** An honest host. *)
Definition io_ok : HostResponses :=
  {| startDownload_err := None; WriteObject_err := None;
     negotiateRevision_ret := (42%N, None);
     ReadObject_ret := inr [sector0] |}.

(** A host that sends two payload blobs. *)
Definition io_two_blobs : HostResponses :=
  {| startDownload_err := None; WriteObject_err := None;
     negotiateRevision_ret := (42%N, None);
     ReadObject_ret := inr [sector0; sector0] |}.

(** A host that sends one blob of the right size and the wrong content. *)
Definition io_bad_hash : HostResponses :=
  {| startDownload_err := None; WriteObject_err := None;
     negotiateRevision_ret := (42%N, None);
     ReadObject_ret := inr [[Byte.x04; Byte.x04; Byte.x04; Byte.x04]] |}.

(** A host whose revision negotiation fails with a revision mismatch. *)
Definition io_mismatch : HostResponses :=
  {| startDownload_err := None; WriteObject_err := None;
     negotiateRevision_ret := (0%N, Some (revision_mismatch "host revision differs"));
     ReadObject_ret := inr [sector0] |}.

(** A contract whose remaining funds equal the uninflated sector price
    1000 * 4 = 4000, below the inflated price 4008. *)
Definition contract_tight : RenterContract :=
  {| ID := 7%N; HostPublicKey := "host-1";
     LastRevision := {| NewRevisionNumber := 5; NewValidProofOutputs := [4000; 200] |};
     LastRevisionTxn := 0%N; MerkleRoots := [[Byte.x0a]]; SecretKey := 1%N;
     DownloadSpending := 30 |}.

(** A contract that cannot pay for one sector. *)
Definition contract_poor : RenterContract :=
  {| ID := 7%N; HostPublicKey := "host-1";
     LastRevision := {| NewRevisionNumber := 5; NewValidProofOutputs := [3999; 200] |};
     LastRevisionTxn := 0%N; MerkleRoots := [[Byte.x0a]]; SecretKey := 1%N;
     DownloadSpending := 30 |}.

(** A stand-in for [err.Error()]. *)
Definition Error0 (e : error) : string :=
  match e with
  | errors_New msg | revision_mismatch msg | collaborator_error msg => msg
  | _ => "error"
  end.

(** A reachable host that agrees on the recent revision, and one that
    reports a different revision. *)
Definition dial_ok : DialResponses :=
  {| Dial_err := None; WriteRPC_err := None; verifyRecentRevision_err := None |}.

Definition dial_mismatch : DialResponses :=
  {| Dial_err := None; WriteRPC_err := None;
     verifyRecentRevision_err := Some (revision_mismatch "host revision differs") |}.

(** A session as [NewDownloader] returns it. *)
Definition session0 : World := fresh_session world0.

(** Three calls on contract 7: an honest answer, a blob with the wrong
    content, an honest answer. *)
Definition calls0 : list (Downloader * HostResponses * Hash) :=
  [(hd0, io_ok, root0); (hd0, io_bad_hash, root0); (hd_nohook, io_ok, root0)].

(** Chunks of a file with 10 pieces of which 6 suffice, stored at no
    local path, with 9 and with 7 pieces completed. *)
Definition chunk_A : Renter.unfinishedChunk :=
  {| Renter.localPath := ""; Renter.offset := 0; Renter.length := 4;
     Renter.minimumPieces := 6; Renter.piecesNeeded := 10; Renter.piecesCompleted := 9;
     Renter.pieceUsage := [true; false; true];
     Renter.logicalChunkData := []; Renter.physicalChunkData := [] |}.

Definition chunk_B : Renter.unfinishedChunk :=
  {| Renter.localPath := ""; Renter.offset := 0; Renter.length := 4;
     Renter.minimumPieces := 6; Renter.piecesNeeded := 10; Renter.piecesCompleted := 7;
     Renter.pieceUsage := [true; false; true];
     Renter.logicalChunkData := []; Renter.physicalChunkData := [] |}.

(** The chunk of scenario A with a copy of the file on the local disk. *)
Definition chunk_local : Renter.unfinishedChunk :=
  {| Renter.localPath := "/home/user/file.dat"; Renter.offset := 8; Renter.length := 4;
     Renter.minimumPieces := 6; Renter.piecesNeeded := 10; Renter.piecesCompleted := 9;
     Renter.pieceUsage := [true; false; true];
     Renter.logicalChunkData := []; Renter.physicalChunkData := [] |}.

(** A healthy disk and network, and an erasure coder that hands back
    two pieces only. *)
Definition env_two_pieces : Renter.Env :=
  {| Renter.download_outcome := Renter.DownloadFinished sector0 None;
     Renter.os_Open := fun _ => None;
     Renter.file_ReadAt := fun _ _ _ => (sector0, None);
     Renter.erasureCode_Encode := fun data => ([data; data], None);
     Renter.workerPool := [1%N; 2%N] |}.

(** A disk on which the file cannot be opened, a working network, and
    an erasure coder that hands back three pieces. *)
Definition env_no_file : Renter.Env :=
  {| Renter.download_outcome := Renter.DownloadFinished sector0 None;
     Renter.os_Open := fun _ => Some (collaborator_error "no such file or directory");
     Renter.file_ReadAt := fun _ _ _ => ([], None);
     Renter.erasureCode_Encode := fun data => ([data; data; data], None);
     Renter.workerPool := [1%N; 2%N] |}.

Definition state0 : Renter.State := {| Renter.memoryAvailable := 1000; Renter.trace := [] |}.

(** A host that countersigns nothing more: it answers the revision with
    the stop response and still sends the sector. *)
Definition io_stop : HostResponses :=
  {| startDownload_err := None; WriteObject_err := None;
     negotiateRevision_ret := (42%N, Some ErrStopResponse);
     ReadObject_ret := inr [sector0] |}.

(** The host of the scenarios as the host database lists it. *)
Definition host0 : HostDBEntry := {| DownloadBandwidthPrice := 1000 |}.

(** A session of five calls: a download, a close, a failed download, a
    download on which the host stops, and a second close. *)
Definition ops0 : list Session.Op :=
  [ Session.OpSector hd0 io_ok root0; Session.OpClose;
    Session.OpSector hd0 io_bad_hash root0;
    Session.OpSector hd_nohook io_stop root0; Session.OpClose ].

End Scenario.

(** * Properties of [Downloader.Sector] *)

Section SectorProperties.
Import Proto.

Variable SectorSize : Z.
Variable MerkleRoot : list byte -> Hash.
Context {currencySub : CurrencySub}.

Local Abbreviation Sector := (Proto.Sector SectorSize MerkleRoot).
Local Abbreviation Sector_acquired := (Proto.Sector_acquired SectorSize MerkleRoot).
Local Abbreviation Sector_exchange := (Proto.Sector_exchange SectorSize MerkleRoot).

(** On its successful exit the exchange has read exactly one blob of
    [SectorSize] bytes whose Merkle root is the requested one; every other
    exit carries an error and no payload, and leaves the local variable
    [contract] as it was. *)
Lemma Sector_exchange_result root contract rev price io w :
  let '(_, contract', res, _) := Sector_exchange root contract rev price io w in
  (exists sector,
      (snd (negotiateRevision_ret io) = None \/
       snd (negotiateRevision_ret io) = Some ErrStopResponse) /\
      ReadObject_ret io = inr [sector] /\
      Z.of_nat (List.length sector) = SectorSize /\ MerkleRoot sector = root /\
      contract' = {| ID := ID contract; HostPublicKey := HostPublicKey contract;
                     LastRevision := rev;
                     LastRevisionTxn := fst (negotiateRevision_ret io);
                     MerkleRoots := MerkleRoots contract; SecretKey := SecretKey contract;
                     DownloadSpending := Add (DownloadSpending contract) price |} /\
      res = (contract', Some sector, None))
  \/ (exists e, res = failure e /\ contract' = contract).
Proof.
  unfold Proto.Sector_exchange.
  destruct (negotiateRevision_ret io) as [txn err]; simpl.
  destruct (if bool_decide (err = Some ErrStopResponse) then None else err) as [e|] eqn:Herr;
    [right; eauto|].
  assert (Hneg : err = None \/ err = Some ErrStopResponse).
  { case_bool_decide; auto. }
  destruct (ReadObject_ret io) as [e|sectors]; [right; eauto|].
  destruct sectors as [|sector [|s2 rest]]; simpl; try (right; eauto; fail).
  destruct (Z.eqb_spec (Z.of_nat (List.length sector)) SectorSize) as [Hlen|Hlen]; simpl;
    [|right; eauto].
  destruct (bool_decide_reflect (MerkleRoot sector = root)) as [Hroot|Hroot]; simpl;
    [|right; eauto].
  left. exists sector. auto 10.
Qed.

(** The exchange touches nothing but the trace. *)
Lemma Sector_exchange_frame root contract rev price io w :
  let '(w', _, _, _) := Sector_exchange root contract rev price io w in
  contractSet w' = contractSet w /\
  successfulInteractions w' = successfulInteractions w /\
  failedInteractions w' = failedInteractions w.
Proof.
  unfold Proto.Sector_exchange.
  destruct (negotiateRevision_ret io) as [txn err]; simpl.
  repeat case_match; simplify_eq/=; auto.
Qed.

(** Everything [Sector] does between acquiring the contract and handing
    it back: the contract set is not touched, the call either commits or
    fails leaving its copy of the contract alone, and the host's
    counters move only once line 84 has been passed. *)
Lemma Sector_acquired_spec hd io root contract w :
  let '(w', contract', res) := Sector_acquired hd io root contract w in
  contractSet w' = contractSet w /\
  ((exists sector,
       reaches_payload SectorSize hd io contract = true /\
       ReadObject_ret io = inr [sector] /\
       Z.of_nat (List.length sector) = SectorSize /\ MerkleRoot sector = root /\
       contract' = committed SectorSize hd io contract /\
       res = (contract', Some sector, None))
   \/ (exists e, res = failure e /\ contract' = contract)) /\
  (if reaches_exchange SectorSize hd io contract then
     match result_err res with
     | None =>
       successfulInteractions w' =
         <[HostPublicKey contract :=
             (interactions (successfulInteractions w) (HostPublicKey contract) + 1)%N]>
           (successfulInteractions w) /\
       failedInteractions w' = failedInteractions w
     | Some _ =>
       failedInteractions w' =
         <[HostPublicKey contract :=
             (interactions (failedInteractions w) (HostPublicKey contract) + 1)%N]>
           (failedInteractions w) /\
       successfulInteractions w' = successfulInteractions w
     end
   else
     successfulInteractions w' = successfulInteractions w /\
     failedInteractions w' = failedInteractions w).
Proof.
  unfold Proto.Sector_acquired, reaches_payload, reaches_exchange, funds_suffice, hook_answer,
    sector_price.
  destruct (Cmp _ _ <? 0) eqn:Hfunds; simpl; [eauto 8|].
  destruct (startDownload_err io) as [e|] eqn:Hstart; simpl; [eauto 8|].
  set (price := MulFloat _ _).
  set (rev := newDownloadRevision _ _).
  destruct (SaveFn hd) as [save|]; simpl;
    [destruct (save rev (MerkleRoots contract)) as [e|] eqn:Hsave; simpl; [eauto 8|]|].
  all: destruct (WriteObject_err io) as [e|] eqn:Hwrite; simpl; [eauto 8|].
  all: match goal with |- context [Sector_exchange ?a ?b ?c ?d ?e ?f] =>
      pose proof (Sector_exchange_result a b c d e f) as Hres;
      pose proof (Sector_exchange_frame a b c d e f) as Hframe;
      destruct (Sector_exchange a b c d e f) as [[[w1 c1] r1] stop]
    end.
  all: destruct Hframe as (Hcs & Hsucc & Hfail); simpl in *.
  all: destruct Hres as [(sector & Hneg & Hread & Hlen & Hroot & Hc & Hr)|(e & Hr & Hc)];
    subst r1; simpl.
  (* the call commits *)
  1,3: split; [destruct stop; simpl; congruence|]; split;
    [left; exists sector; repeat split; auto; destruct Hneg as [-> | ->]; done
    |rewrite Hc at 1 2; simpl; destruct stop; simpl; split; congruence].
  (* the exchange fails *)
  all: subst c1; split; [destruct stop; simpl; congruence|]; split; [eauto|];
    destruct stop; simpl; split; congruence.
Qed.

(** C1.  Whatever the host answers, [Sector] either returns a payload of
    exactly [SectorSize] bytes whose Merkle root is the requested [root],
    together with a nil error, or it returns a non-nil error (and then no
    payload at all). *)
Theorem Sector_payload_verified_or_error hd io root w :
  let r := snd (Sector hd io root w) in
  (exists sector,
      result_payload r = Some sector /\ result_err r = None /\
      Z.of_nat (List.length sector) = SectorSize /\ MerkleRoot sector = root)
  \/ (result_err r <> None /\ result_payload r = None).
Proof.
  unfold Proto.Sector, Acquire.
  destruct (contractSet w !! contractID hd) as [contract|]; simpl; [|right; done].
  pose proof (Sector_acquired_spec hd io root contract w) as Hspec.
  destruct (Sector_acquired hd io root contract w) as [[w1 c1] r1]; simpl.
  destruct Hspec as (_ & [(sector & _ & _ & Hlen & Hroot & _ & ->)|(e & -> & _)] & _).
  - left. exists sector. done.
  - right. done.
Qed.

(** Facts packed in [reaches_exchange] and [reaches_payload]. *)
Lemma reaches_exchange_inv hd io contract :
  reaches_exchange SectorSize hd io contract = true ->
  (Cmp (RenterFunds contract) (Mul64 (DownloadBandwidthPrice (host hd)) SectorSize) <? 0) = false /\
  startDownload_err io = None /\
  hook_answer SectorSize hd contract = None /\
  WriteObject_err io = None.
Proof.
  unfold reaches_exchange, funds_suffice. intros H.
  repeat (apply andb_true_iff in H as [H ?]).
  apply negb_true_iff in H.
  repeat match goal with Hb : bool_decide _ = true |- _ => apply bool_decide_eq_true in Hb end.
  done.
Qed.

Lemma reaches_payload_inv hd io contract :
  reaches_payload SectorSize hd io contract = true ->
  reaches_exchange SectorSize hd io contract = true /\
  (snd (negotiateRevision_ret io) = None \/
   snd (negotiateRevision_ret io) = Some ErrStopResponse).
Proof.
  unfold reaches_payload. intros H.
  apply andb_true_iff in H as [H Hneg]. split; [done|].
  apply orb_true_iff in Hneg as [Hneg|Hneg]; apply bool_decide_eq_true in Hneg; auto.
Qed.

(** Once line 84 is reached, the call is the exchange followed by the
    deferred actions. *)
Lemma Sector_acquired_reaches hd io root contract w :
  reaches_exchange SectorSize hd io contract = true ->
  Sector_acquired hd io root contract w =
    let '(w1, c1, r1, stop) :=
      Sector_exchange root contract
        (newDownloadRevision (LastRevision contract) (sector_price SectorSize hd))
        (sector_price SectorSize hd) io (before_exchange SectorSize hd root contract w) in
    (match result_err r1 with
     | Some _ => IncrementFailedInteractions (HostPublicKey c1)
     | None => IncrementSuccessfulInteractions (HostPublicKey c1)
     end (if stop then fst (conn_Close w1) else w1), c1, r1).
Proof.
  intros (Hfunds & Hstart & Hhook & Hwrite)%reaches_exchange_inv.
  unfold Proto.Sector_acquired, before_exchange. rewrite Hfunds, Hstart.
  unfold hook_answer in Hhook. fold (sector_price SectorSize hd).
  destruct (SaveFn hd) as [save|]; simpl; [rewrite Hhook; simpl|]; rewrite Hwrite;
    destruct (Sector_exchange _ _ _ _ _ _) as [[[w1 c1] r1] stop]; simpl;
    destruct (result_err r1); reflexivity.
Qed.

(** What the exchange returns for each kind of bad payload. *)
Lemma Sector_exchange_bad_payload root contract rev price io w sectors :
  (snd (negotiateRevision_ret io) = None \/
   snd (negotiateRevision_ret io) = Some ErrStopResponse) ->
  ReadObject_ret io = inr sectors ->
  let r := snd (fst (Sector_exchange root contract rev price io w)) in
  (List.length sectors <> 1%nat ->
     r = failure (errors_New "host did not send enough sectors")) /\
  (forall s, sectors = [s] -> Z.of_nat (List.length s) <> SectorSize ->
     r = failure (errors_New "host did not send enough sector data")) /\
  (forall s, sectors = [s] -> Z.of_nat (List.length s) = SectorSize -> MerkleRoot s <> root ->
     r = failure (errors_New "host sent bad sector data")).
Proof.
  intros Hneg Hread. unfold Proto.Sector_exchange. rewrite Hread.
  destruct (negotiateRevision_ret io) as [txn err]; simpl in *.
  assert (Hgo : (if bool_decide (err = Some ErrStopResponse) then None else err) = None).
  { destruct Hneg as [-> | ->]; done. }
  rewrite Hgo. repeat split.
  - intros Hlen. destruct sectors as [|s [|s2 rest]]; simpl in *; done.
  - intros s -> Hlen; simpl.
    destruct (Z.eqb_spec (Z.of_nat (List.length s)) SectorSize); done.
  - intros s -> Hlen Hroot; simpl.
    destruct (Z.eqb_spec (Z.of_nat (List.length s)) SectorSize); [simpl|done].
    destruct (bool_decide_reflect (MerkleRoot s = root)); done.
Qed.

(** C2.  When the call has got as far as reading the payload and the
    host sent a wrong number of blobs, a blob of the wrong size, or a
    blob with the wrong Merkle root, [Sector] fails with the error of
    that case (the three are different from each other and from the
    other errors [Sector] creates), the contract set is left as it was
    (no new revision, no spending), and the host's failure counter goes
    up by one while its success counter stays. *)
Theorem Sector_bad_payload_rejected hd io root w contract sectors :
  contractSet w !! contractID hd = Some contract ->
  ID contract = contractID hd ->
  reaches_payload SectorSize hd io contract = true ->
  ReadObject_ret io = inr sectors ->
  (List.length sectors <> 1%nat \/
   exists s, sectors = [s] /\ (Z.of_nat (List.length s) <> SectorSize \/ MerkleRoot s <> root)) ->
  let w' := fst (Sector hd io root w) in
  let r := snd (Sector hd io root w) in
  (List.length sectors <> 1%nat ->
     r = failure (errors_New "host did not send enough sectors")) /\
  (forall s, sectors = [s] -> Z.of_nat (List.length s) <> SectorSize ->
     r = failure (errors_New "host did not send enough sector data")) /\
  (forall s, sectors = [s] -> Z.of_nat (List.length s) = SectorSize -> MerkleRoot s <> root ->
     r = failure (errors_New "host sent bad sector data")) /\
  NoDup Sector_errors /\
  contractSet w' = contractSet w /\
  failedInteractions w' =
    <[HostPublicKey contract :=
        (interactions (failedInteractions w) (HostPublicKey contract) + 1)%N]>
      (failedInteractions w) /\
  successfulInteractions w' = successfulInteractions w.
Proof.
  intros Hacq Hid (Hex & Hneg)%reaches_payload_inv Hread Hbad.
  unfold Proto.Sector, Acquire. rewrite Hacq.
  pose proof (Sector_acquired_spec hd io root contract w) as Hspec.
  rewrite Hex in Hspec.
  rewrite (Sector_acquired_reaches hd io root contract w Hex) in *.
  match goal with |- context [Sector_exchange ?a ?b ?c ?d ?e ?f] =>
    pose proof (Sector_exchange_bad_payload a b c d e f sectors Hneg Hread) as Hpay;
    destruct (Sector_exchange a b c d e f) as [[[w1 c1] r1] stop]
  end.
  simpl in Hpay. destruct Hpay as (He1 & He2 & He3).
  assert (Hfail : exists e, r1 = failure e).
  { destruct Hbad as [Hlen|(s & -> & Hs)]; [eauto|].
    destruct (Z.eq_dec (Z.of_nat (List.length s)) SectorSize) as [Hlen|Hlen]; [|eauto].
    destruct Hs as [Hs|Hs]; [done|eauto]. }
  destruct Hfail as (e & ->). simpl in *.
  destruct Hspec as (Hcs & Hres & Hfailed & Hsucc).
  assert (Hc1 : c1 = contract).
  { destruct Hres as [(? & _ & _ & _ & _ & _ & ?)|(? & _ & ?)]; done. }
  subst c1.
  repeat split; auto.
  - by apply (bool_decide_unpack _); vm_compute.
  - rewrite Hcs, Hid. by apply insert_id.
Qed.

(** C4, as the code has it.  A call that does not get as far as the
    revision exchange (contract absent, funds short, settings round-trip,
    persistence hook or sending of the download action failed) returns an
    error and moves neither counter of the host.  A call that gets that
    far moves exactly one: the success counter when it returns a nil
    error, the failure counter when it returns any error, a revision
    mismatch included. *)
Theorem Sector_reputation_update hd io root w :
  let w' := fst (Sector hd io root w) in
  let r := snd (Sector hd io root w) in
  match contractSet w !! contractID hd with
  | Some contract =>
    if reaches_exchange SectorSize hd io contract then
      match result_err r with
      | None =>
        successfulInteractions w' =
          <[HostPublicKey contract :=
              (interactions (successfulInteractions w) (HostPublicKey contract) + 1)%N]>
            (successfulInteractions w) /\
        failedInteractions w' = failedInteractions w
      | Some _ =>
        failedInteractions w' =
          <[HostPublicKey contract :=
              (interactions (failedInteractions w) (HostPublicKey contract) + 1)%N]>
            (failedInteractions w) /\
        successfulInteractions w' = successfulInteractions w
      end
    else
      result_err r <> None /\
      successfulInteractions w' = successfulInteractions w /\
      failedInteractions w' = failedInteractions w
  | None =>
    result_err r <> None /\
    successfulInteractions w' = successfulInteractions w /\
    failedInteractions w' = failedInteractions w
  end.
Proof.
  unfold Proto.Sector, Acquire.
  destruct (contractSet w !! contractID hd) as [contract|]; simpl; [|done].
  pose proof (Sector_acquired_spec hd io root contract w) as Hspec.
  destruct (Sector_acquired hd io root contract w) as [[w1 c1] r1]; simpl.
  destruct Hspec as (_ & Hres & Hrep).
  destruct (reaches_exchange SectorSize hd io contract) eqn:Hex; [done|].
  split; [|done].
  destruct Hres as [(sector & Hpay & _)|(e & -> & _)]; [|done].
  apply reaches_payload_inv in Hpay as [Hex' _]. congruence.
Qed.

(** Closes [e ∉ [e1; ...; en]] when [e] differs from each by its
    constructor. *)
Ltac absent_event :=
  let H := fresh "Hin" in
  intros H; repeat (apply elem_of_cons in H as [H|H]; [discriminate H|]);
  by apply elem_of_nil in H.

(** Splits a membership [e ∈ e1 :: ... ++ l ++ ...] into its cases and
    drops those that differ by the constructor. *)
Ltac event_cases H :=
  repeat first
    [ apply elem_of_nil in H; destruct H
    | apply elem_of_cons in H as [H|H]; [try discriminate H|]
    | apply elem_of_app in H as [H|H] ].

(** The exchange starts by sending the revision it was given, sends no
    other, and never calls the persistence hook. *)
Lemma Sector_exchange_trace root contract rev price io w :
  exists evs,
    trace (fst (fst (fst (Sector_exchange root contract rev price io w)))) =
      trace w ++ EvExtendDeadline TwoMinutes :: EvNegotiateRevision rev :: evs /\
    (forall r, EvNegotiateRevision r ∉ evs) /\
    (forall r roots, EvSaveFn r roots ∉ evs).
Proof.
  unfold Proto.Sector_exchange.
  destruct (negotiateRevision_ret io) as [txn err]; simpl.
  repeat case_match; simpl; rewrite <- ?app_assoc; simpl;
    eexists; (split; [reflexivity|]); split; intros; absent_event.
Qed.

Lemma Cmp_neg (x y : Currency) : (Cmp x y <? 0) = (x <? y).
Proof.
  unfold Cmp. destruct (Z.compare_spec x y); symmetry; simpl.
  - apply Z.ltb_ge; lia.
  - by apply Z.ltb_lt.
  - apply Z.ltb_ge; lia.
Qed.

(** The funds test as the code has it.  It compares the contract's
    remaining funds with the uninflated price [bandwidthPrice *
    SectorSize].  Below it the call is turned away with the
    insufficient-funds error before anything is sent (the only action is
    the deferred deadline reset) and the contract set is left alone; at
    or above it the call goes on to the settings round-trip. *)
Theorem Sector_funds_check hd io root w contract :
  contractSet w !! contractID hd = Some contract ->
  ID contract = contractID hd ->
  let base := Mul64 (DownloadBandwidthPrice (host hd)) SectorSize in
  let w' := fst (Sector hd io root w) in
  let r := snd (Sector hd io root w) in
  (RenterFunds contract < base ->
     r = failure (errors_New "contract has insufficient funds to support download") /\
     trace w' = trace w ++ [EvExtendDeadline Hour] /\
     contractSet w' = contractSet w) /\
  (base <= RenterFunds contract ->
     exists rest,
       trace w' = trace w ++ EvExtendDeadline NegotiateSettingsTime :: EvStartDownload :: rest).
Proof.
  intros Hacq Hid. unfold Proto.Sector, Acquire. rewrite Hacq.
  unfold Proto.Sector_acquired. rewrite Cmp_neg. split.
  - intros Hlt. apply Z.ltb_lt in Hlt. rewrite Hlt. simpl.
    repeat split. rewrite Hid. by apply insert_id.
  - intros Hge. apply Z.ltb_ge in Hge. rewrite Hge.
    destruct (startDownload_err io); simpl;
      [rewrite <- ?app_assoc; simpl; eauto|].
    destruct (SaveFn hd) as [save|]; simpl.
    all: try destruct (save _ _); simpl.
    all: try (rewrite <- ?app_assoc; simpl; eauto; fail).
    all: destruct (WriteObject_err io); simpl;
      [rewrite <- ?app_assoc; simpl; eauto|].
    all: match goal with |- context [Sector_exchange ?a ?b ?c ?d ?e ?f] =>
        destruct (Sector_exchange_trace a b c d e f) as (evs & Htr & _);
        destruct (Sector_exchange a b c d e f) as [[[w1 c1] r1] stop]
      end; simpl in *.
    all: destruct stop, (result_err r1); simpl; rewrite Htr; simpl;
      rewrite <- ?app_assoc; simpl; eauto.
Qed.

(** Committing a revision keeps a renter output in place and, where the
    funds cover the price, takes the price out of the renter's funds. *)
Lemma committed_outputs hd io c :
  NewValidProofOutputs (LastRevision c) <> [] ->
  NewValidProofOutputs (LastRevision (committed SectorSize hd io c)) <> [].
Proof.
  unfold committed, newDownloadRevision; simpl.
  destruct (NewValidProofOutputs (LastRevision c)) as [|renter [|hostOut rest]]; done.
Qed.

Lemma RenterFunds_committed hd io c :
  Sub_exact ->
  NewValidProofOutputs (LastRevision c) <> [] ->
  sector_price SectorSize hd <= RenterFunds c ->
  RenterFunds (committed SectorSize hd io c) = RenterFunds c - sector_price SectorSize hd.
Proof.
  intros Hsub. unfold RenterFunds, committed, newDownloadRevision; simpl.
  destruct (NewValidProofOutputs (LastRevision c)) as [|renter [|hostOut rest]]; simpl;
    [done| |]; intros _ Hcover; by apply Hsub.
Qed.

Lemma sector_price_nonneg hd :
  0 <= SectorSize -> 0 <= DownloadBandwidthPrice (host hd) -> 0 <= sector_price SectorSize hd.
Proof.
  intros Hsize Hprice. unfold sector_price, MulFloat, Mul64, one_plus_hostPriceLeeway; simpl.
  apply Z.div_pos; nia.
Qed.

Lemma spent_nonneg calls : forall rs,
  0 <= SectorSize ->
  Forall (fun call => 0 <= DownloadBandwidthPrice (host (fst (fst call)))) calls ->
  0 <= spent SectorSize calls rs.
Proof.
  intros rs Hsize Hprices. revert rs.
  induction Hprices as [|[[hd io] root] calls Hp Hprices IH]; intros [|r rs]; simpl; try lia.
  specialize (IH rs). pose proof (sector_price_nonneg hd Hsize Hp). case_bool_decide; lia.
Qed.

(** One call, seen from the contract set: the entry of the contract is
    the committed contract after a nil error and the old one otherwise,
    and no other entry changes. *)
Lemma Sector_step hd io root w c :
  contractSet w !! contractID hd = Some c ->
  ID c = contractID hd ->
  contractSet (fst (Sector hd io root w)) =
    <[contractID hd :=
        if bool_decide (result_err (snd (Sector hd io root w)) = None)
        then committed SectorSize hd io c else c]> (contractSet w).
Proof.
  intros Hacq Hid. unfold Proto.Sector, Acquire. rewrite Hacq.
  pose proof (Sector_acquired_spec hd io root c w) as Hspec.
  destruct (Sector_acquired hd io root c w) as [[w1 c1] r1]; simpl.
  destruct Hspec as (Hcs & [(sector & _ & _ & _ & _ & -> & ->)|(e & -> & ->)] & _);
    simpl; rewrite Hcs, Hid; done.
Qed.


(** What the persistence hook sees.  When a hook is installed and the
    call gets past the settings round-trip, the hook is called exactly
    once, before the download action and the revision are sent; it is
    given the newly built revision (the one that is then sent, not the
    contract's current one) and the contract's current merkle roots.  If
    it reports an error the call fails with that error and sends
    nothing more. *)
Theorem Sector_hook_precedes_revision hd io root w contract save :
  contractSet w !! contractID hd = Some contract ->
  SaveFn hd = Some save ->
  funds_suffice SectorSize hd contract = true ->
  startDownload_err io = None ->
  let rev := newDownloadRevision (LastRevision contract) (sector_price SectorSize hd) in
  let w' := fst (Sector hd io root w) in
  let r := snd (Sector hd io root w) in
  exists rest,
    trace w' = trace w ++ EvExtendDeadline NegotiateSettingsTime :: EvStartDownload
                         :: EvSaveFn rev (MerkleRoots contract) :: rest /\
    (forall r0 roots, EvSaveFn r0 roots ∉ rest) /\
    (forall r0, EvNegotiateRevision r0 ∈ rest -> r0 = rev) /\
    (forall e, save rev (MerkleRoots contract) = Some e ->
       r = failure e /\ rest = [EvExtendDeadline Hour]).
Proof.
  intros Hacq Hsave Hfunds Hstart; simpl.
  unfold funds_suffice in Hfunds. apply negb_true_iff in Hfunds.
  unfold Proto.Sector, Acquire. rewrite Hacq.
  unfold Proto.Sector_acquired. rewrite Hfunds, Hstart, Hsave.
  fold (sector_price SectorSize hd); simpl.
  destruct (save _ _) as [e|] eqn:Hans; simpl.
  { rewrite <- !app_assoc; simpl. eexists; split; [reflexivity|].
    split; [intros r0 roots Hin; event_cases Hin|].
    split; [intros r0 Hin; event_cases Hin|].
    intros e' He'; by simplify_eq. }
  destruct (WriteObject_err io); simpl.
  { rewrite <- !app_assoc; simpl. eexists; split; [reflexivity|].
    split; [intros r0 roots Hin; event_cases Hin|].
    split; [intros r0 Hin; event_cases Hin|].
    intros e' He'; by simplify_eq. }
  match goal with |- context [Sector_exchange ?a ?b ?c ?d ?e ?f] =>
    destruct (Sector_exchange_trace a b c d e f) as (evs & Htr & Hnorev & Hnosave);
    destruct (Sector_exchange a b c d e f) as [[[w1 c1] r1] stop]
  end; simpl in *.
  destruct stop, (result_err r1); simpl; rewrite Htr; simpl;
    rewrite <- !app_assoc; simpl; (eexists; split; [reflexivity|]).
  all: split; [intros r0 roots Hin; event_cases Hin; by eapply Hnosave|].
  all: split; [|discriminate].
  all: intros r0 Hin; event_cases Hin; simplify_eq; auto; by (exfalso; eapply Hnorev).
Qed.

End SectorProperties.

(** * Further properties of [Downloader.Sector] *)

Section SectorFurther.
Import Proto Session.

Variable SectorSize : Z.
Variable MerkleRoot : list byte -> Hash.
Context {currencySub : CurrencySub}.

Local Abbreviation Sector := (Proto.Sector SectorSize MerkleRoot).
Local Abbreviation Sector_acquired := (Proto.Sector_acquired SectorSize MerkleRoot).
Local Abbreviation Sector_exchange := (Proto.Sector_exchange SectorSize MerkleRoot).

(** The exchange leaves the session alone, and its last result tells
    whether the host stopped. *)
Lemma Sector_exchange_session root contract rev price io w :
  let res := Sector_exchange root contract rev price io w in
  snd res = bool_decide (snd (negotiateRevision_ret io) = Some ErrStopResponse) /\
  connClosed (fst (fst (fst res))) = connClosed w /\
  onceDone (fst (fst (fst res))) = onceDone w /\
  closeChanClosed (fst (fst (fst res))) = closeChanClosed w.
Proof.
  unfold Proto.Sector_exchange.
  destruct (negotiateRevision_ret io) as [txn err]; simpl.
  repeat case_match; simplify_eq/=; auto.
Qed.

(** With the revision countersigned (or the host stopping) and exactly
    one blob of the right size and root, the exchange commits. *)
Lemma Sector_exchange_good_payload root contract rev price io w sector :
  (snd (negotiateRevision_ret io) = None \/
   snd (negotiateRevision_ret io) = Some ErrStopResponse) ->
  ReadObject_ret io = inr [sector] ->
  Z.of_nat (List.length sector) = SectorSize ->
  MerkleRoot sector = root ->
  result_err (snd (fst (Sector_exchange root contract rev price io w))) = None.
Proof.
  intros Hneg Hread Hlen Hroot. unfold Proto.Sector_exchange. rewrite Hread.
  destruct (negotiateRevision_ret io) as [txn err]; simpl in *.
  assert (Hgo : (if bool_decide (err = Some ErrStopResponse) then None else err) = None).
  { destruct Hneg as [-> | ->]; done. }
  rewrite Hgo; simpl. rewrite Hlen, Z.eqb_refl; simpl.
  by rewrite bool_decide_eq_true_2.
Qed.

(** The session flags over the part of [Sector] that runs with the
    contract acquired: only the connection can change, and it is closed
    exactly when the host stopped gracefully. *)
Lemma Sector_acquired_session hd io root contract w :
  let w' := fst (fst (Sector_acquired hd io root contract w)) in
  onceDone w' = onceDone w /\
  closeChanClosed w' = closeChanClosed w /\
  connClosed w' = connClosed w || stopped_gracefully SectorSize hd io contract.
Proof.
  unfold stopped_gracefully.
  destruct (reaches_exchange SectorSize hd io contract) eqn:Hex; simpl.
  - rewrite (Sector_acquired_reaches SectorSize MerkleRoot hd io root contract w Hex).
    match goal with |- context [Sector_exchange ?a ?b ?c ?d ?e ?f] =>
      destruct (Sector_exchange_session a b c d e f) as (Hstop & Hconn & Honce & Hchan);
      destruct (Sector_exchange a b c d e f) as [[[w1 c1] r1] stop]
    end; simpl in *. subst stop.
    assert (Hflags : connClosed w1 = connClosed w /\ onceDone w1 = onceDone w /\
                     closeChanClosed w1 = closeChanClosed w).
    { unfold before_exchange in *. destruct (SaveFn hd); simpl in *; auto. }
    clear Hconn Honce Hchan. destruct Hflags as (Hconn & Honce & Hchan).
    destruct (bool_decide _), (result_err r1); simpl;
      rewrite ?orb_true_r, ?orb_false_r; auto.
  - rewrite orb_false_r. revert Hex.
    unfold reaches_exchange, funds_suffice, hook_answer, sector_price, Proto.Sector_acquired.
    destruct (Cmp _ _ <? 0); simpl; [done|].
    destruct (startDownload_err io); simpl; [done|].
    destruct (SaveFn hd) as [save|]; simpl; [destruct (save _ _); simpl; [done|]|].
    all: destruct (WriteObject_err io); simpl; [done|].
    all: rewrite ?bool_decide_eq_true_2 by done; done.
Qed.

(** A call whose contract is in the set and has the funds of the
    uninflated price starts the settings round-trip. *)
Lemma Sector_starts_download hd io root w c :
  contractSet w !! contractID hd = Some c ->
  funds_suffice SectorSize hd c = true ->
  exists rest,
    trace (fst (Sector hd io root w)) =
      trace w ++ EvExtendDeadline NegotiateSettingsTime :: EvStartDownload :: rest.
Proof.
  intros Hacq Hfunds. unfold funds_suffice in Hfunds. apply negb_true_iff in Hfunds.
  unfold Proto.Sector, Acquire. rewrite Hacq.
  unfold Proto.Sector_acquired. rewrite Hfunds.
  destruct (startDownload_err io); simpl; [rewrite <- ?app_assoc; simpl; eauto|].
  destruct (SaveFn hd) as [save|]; simpl.
  all: try destruct (save _ _); simpl.
  all: try (rewrite <- ?app_assoc; simpl; eauto; fail).
  all: destruct (WriteObject_err io); simpl; [rewrite <- ?app_assoc; simpl; eauto|].
  all: match goal with |- context [Proto.Sector_exchange ?S ?M ?a ?b ?c ?d ?e ?f] =>
      destruct (Sector_exchange_trace S M a b c d e f) as (evs & Htr & _);
      destruct (Proto.Sector_exchange S M a b c d e f) as [[[w1 c1] r1] stop]
    end; simpl in *.
  all: destruct stop, (result_err r1); simpl; rewrite Htr; simpl;
    rewrite <- ?app_assoc; simpl; eauto.
Qed.

(** A call on a contract of the set that gets as far as the payload and
    is sent exactly one blob of the right size and root returns it with
    the committed contract. *)
Lemma Sector_good_call hd io root w c sector :
  contractSet w !! contractID hd = Some c ->
  reaches_payload SectorSize hd io c = true ->
  ReadObject_ret io = inr [sector] ->
  Z.of_nat (List.length sector) = SectorSize ->
  MerkleRoot sector = root ->
  snd (Sector hd io root w) = (committed SectorSize hd io c, Some sector, None).
Proof.
  intros Hacq Hpay Hread Hlen Hroot. unfold Proto.Sector, Acquire. rewrite Hacq.
  pose proof (Sector_acquired_spec SectorSize MerkleRoot hd io root c w) as Hspec.
  assert (Hok : result_err (snd (Sector_acquired hd io root c w)) = None).
  { apply reaches_payload_inv in Hpay as [Hex Hneg].
    rewrite (Sector_acquired_reaches SectorSize MerkleRoot hd io root c w Hex).
    match goal with |- context [Sector_exchange ?a ?b ?c ?d ?e ?f] =>
      pose proof (Sector_exchange_good_payload a b c d e f sector Hneg Hread Hlen Hroot)
        as Hgood;
      destruct (Sector_exchange a b c d e f) as [[[w1 c1] r1] stop]
    end. done. }
  destruct (Sector_acquired hd io root c w) as [[w1 c1] r1]; simpl in *.
  destruct Hspec as (_ & [(sector' & _ & Hread' & _ & _ & -> & ->)|(e & -> & _)] & _);
    [|done].
  congruence.
Qed.

(** C5, where the code departs from it.  The funds test of line 45 is
    made on the uninflated price; the revision of line 53 is built for
    the inflated one.  A contract whose funds lie between the two is
    therefore not turned away: the call goes on to the settings
    round-trip, and when the host plays along it returns a nil error,
    commits a revision built to take more out of the renter's funds than
    there is in them, and books the inflated price as spent.  Whatever
    [Sub] makes of the renter's output, the committed funds are then
    either below zero or more than what the booked price would leave. *)
Theorem Sector_funds_guard_admits_shortfall hd io root w contract :
  contractSet w !! contractID hd = Some contract ->
  Mul64 (DownloadBandwidthPrice (host hd)) SectorSize <= RenterFunds contract ->
  RenterFunds contract < sector_price SectorSize hd ->
  let w' := fst (Sector hd io root w) in
  let r := snd (Sector hd io root w) in
  let c' := committed SectorSize hd io contract in
  (exists rest,
     trace w' = trace w ++ EvExtendDeadline NegotiateSettingsTime :: EvStartDownload :: rest) /\
  (reaches_payload SectorSize hd io contract = true ->
   forall sector,
     ReadObject_ret io = inr [sector] ->
     Z.of_nat (List.length sector) = SectorSize -> MerkleRoot sector = root ->
     r = (c', Some sector, None) /\
     LastRevision c' = newDownloadRevision (LastRevision contract) (sector_price SectorSize hd) /\
     DownloadSpending c' = DownloadSpending contract + sector_price SectorSize hd /\
     (RenterFunds c' < 0 \/
      RenterFunds contract - sector_price SectorSize hd < RenterFunds c')).
Proof.
  intros Hacq Hbase Hshort; simpl.
  assert (Hfunds : funds_suffice SectorSize hd contract = true).
  { unfold funds_suffice. rewrite Cmp_neg. apply negb_true_iff, Z.ltb_ge. exact Hbase. }
  split.
  - exact (Sector_starts_download hd io root w contract Hacq Hfunds).
  - intros Hpay sector Hread Hlen Hroot.
    split; [exact (Sector_good_call hd io root w contract sector Hacq Hpay Hread Hlen Hroot)|].
    split; [done|]. split; [done|]. lia.
Qed.

(** A call that returns an error has changed nothing about any
    contract: the contract set is as before, no revision is committed,
    nothing is spent, and the results are the zero contract and no
    payload.  The success counters stay too. *)
Theorem Sector_failure_is_atomic hd io root w :
  ContractSet_wf w ->
  result_err (snd (Sector hd io root w)) <> None ->
  contractSet (fst (Sector hd io root w)) = contractSet w /\
  successfulInteractions (fst (Sector hd io root w)) = successfulInteractions w /\
  exists e, snd (Sector hd io root w) = failure e.
Proof.
  intros Hwf. unfold Proto.Sector, Acquire.
  destruct (contractSet w !! contractID hd) as [contract|] eqn:Hacq; simpl; [|eauto].
  pose proof (Sector_acquired_spec SectorSize MerkleRoot hd io root contract w) as Hspec.
  destruct (Sector_acquired hd io root contract w) as [[w1 c1] r1]; simpl.
  destruct Hspec as (Hcs & [(sector & _ & _ & _ & _ & _ & ->)|(e & -> & ->)] & Hrep);
    [done|]. intros _. simpl in Hrep.
  split; [rewrite Hcs, (Hwf _ _ Hacq); by apply insert_id|].
  split; [|eauto].
  destruct (reaches_exchange SectorSize hd io contract); tauto.
Qed.

(** When a call succeeds.  [Sector] returns a nil error exactly when the
    contract is in the set, the call gets as far as the payload, and the
    host sent exactly one blob of [SectorSize] bytes with the requested
    root.  It then returns that blob and the committed contract, and the
    committed contract is what the set holds under the contract's id
    afterwards. *)
Theorem Sector_success_iff hd io root w :
  let w' := fst (Sector hd io root w) in
  let r := snd (Sector hd io root w) in
  (result_err r = None <->
     exists c sector,
       contractSet w !! contractID hd = Some c /\
       reaches_payload SectorSize hd io c = true /\
       ReadObject_ret io = inr [sector] /\
       Z.of_nat (List.length sector) = SectorSize /\ MerkleRoot sector = root) /\
  (forall c, contractSet w !! contractID hd = Some c -> result_err r = None ->
     exists sector,
       ReadObject_ret io = inr [sector] /\
       r = (committed SectorSize hd io c, Some sector, None) /\
       contractSet w' = <[ID c := committed SectorSize hd io c]> (contractSet w)).
Proof.
  simpl. unfold Proto.Sector, Acquire.
  destruct (contractSet w !! contractID hd) as [contract|] eqn:Hacq; simpl.
  2: { split; [|done]. split; [done|]. by intros (? & ? & ? & _). }
  pose proof (Sector_acquired_spec SectorSize MerkleRoot hd io root contract w) as Hspec.
  split.
  - split.
    + destruct (Sector_acquired hd io root contract w) as [[w1 c1] r1]; simpl.
      destruct Hspec as (_ & [(sector & Hpay & Hread & Hlen & Hroot & _)|(e & -> & _)] & _);
        [|done].
      intros _. exists contract, sector. done.
    + intros (c & sector & Hc & Hpay & Hread & Hlen & Hroot).
      assert (c = contract) as -> by congruence.
      apply reaches_payload_inv in Hpay as [Hex Hneg].
      rewrite (Sector_acquired_reaches SectorSize MerkleRoot hd io root contract w Hex).
      match goal with |- context [Sector_exchange ?a ?b ?c ?d ?e ?f] =>
        pose proof (Sector_exchange_good_payload a b c d e f sector Hneg Hread Hlen Hroot)
          as Hgood;
        destruct (Sector_exchange a b c d e f) as [[[w1 c1] r1] stop]
      end. done.
  - intros c Hc Herr. assert (c = contract) as -> by congruence.
    destruct (Sector_acquired hd io root contract w) as [[w1 c1] r1]; simpl in *.
    destruct Hspec as (Hcs & [(sector & _ & Hread & _ & _ & -> & ->)|(e & -> & _)] & _);
      [|done].
    exists sector. simpl. rewrite Hcs. done.
Qed.

(** What a call leaves alone: the close-once guard and the watcher's
    channel, every contract other than its own, and the counters of
    every host other than its contract's; what was in the trace stays.
    The connection is closed by the call exactly when the host answered
    the revision with a graceful stop. *)
Theorem Sector_leaves_rest_alone hd io root w :
  let w' := fst (Sector hd io root w) in
  onceDone w' = onceDone w /\
  closeChanClosed w' = closeChanClosed w /\
  connClosed w' =
    connClosed w ||
    match contractSet w !! contractID hd with
    | Some c => stopped_gracefully SectorSize hd io c
    | None => false
    end /\
  (forall c id, contractSet w !! contractID hd = Some c -> id <> ID c ->
     contractSet w' !! id = contractSet w !! id) /\
  (forall c k, contractSet w !! contractID hd = Some c -> k <> HostPublicKey c ->
     successfulInteractions w' !! k = successfulInteractions w !! k /\
     failedInteractions w' !! k = failedInteractions w !! k) /\
  (contractSet w !! contractID hd = None ->
     contractSet w' = contractSet w /\
     successfulInteractions w' = successfulInteractions w /\
     failedInteractions w' = failedInteractions w).
Proof.
  simpl. unfold Proto.Sector, Acquire.
  destruct (contractSet w !! contractID hd) as [contract|] eqn:Hacq; simpl.
  2: { rewrite orb_false_r. repeat split; done. }
  pose proof (Sector_acquired_spec SectorSize MerkleRoot hd io root contract w) as Hspec.
  pose proof (Sector_acquired_session hd io root contract w) as Hsess.
  destruct (Sector_acquired hd io root contract w) as [[w1 c1] r1]; simpl in *.
  destruct Hsess as (Honce & Hchan & Hconn).
  destruct Hspec as (Hcs & Hres & Hrep).
  assert (Hid : ID c1 = ID contract).
  { by destruct Hres as [(? & _ & _ & _ & _ & -> & _)|(? & _ & ->)]. }
  split; [done|]. split; [done|]. split; [done|]. split; [|split; [|done]].
  - intros c id Hc Hne. assert (c = contract) as -> by congruence.
    rewrite Hcs, Hid. by apply lookup_insert_ne.
  - intros c k Hc Hne. assert (c = contract) as -> by congruence.
    destruct (reaches_exchange SectorSize hd io contract), (result_err r1);
      destruct Hrep as [H1 H2]; rewrite ?H1, ?H2, ?lookup_insert_ne by done; done.
Qed.

(** A graceful stop changes the first three results of the exchange in
    nothing. *)
Lemma Sector_exchange_stop_same root contract rev price io w :
  snd (negotiateRevision_ret io) = Some ErrStopResponse ->
  fst (Sector_exchange root contract rev price io w) =
  fst (Sector_exchange root contract rev price (with_negotiation_err io None) w).
Proof.
  unfold Proto.Sector_exchange, with_negotiation_err.
  destruct (negotiateRevision_ret io) as [txn err]; simpl. intros ->; simpl.
  repeat case_match; simplify_eq/=; auto.
Qed.

(** A graceful stop is not an error.  When the host answers the revision
    with [ErrStopResponse], the results of the call, the contract set and
    the counters are what they would be had the host answered with no
    error at all; the only difference is that the connection is closed
    once the call is over, just before the final deadline reset. *)
Theorem Sector_graceful_stop_transparent hd io root w :
  snd (negotiateRevision_ret io) = Some ErrStopResponse ->
  let stopped := Sector hd io root w in
  let plain := Sector hd (with_negotiation_err io None) root w in
  snd stopped = snd plain /\
  contractSet (fst stopped) = contractSet (fst plain) /\
  successfulInteractions (fst stopped) = successfulInteractions (fst plain) /\
  failedInteractions (fst stopped) = failedInteractions (fst plain) /\
  (forall c, contractSet w !! contractID hd = Some c ->
     reaches_exchange SectorSize hd io c = true ->
     connClosed (fst stopped) = true /\
     exists pre,
       trace (fst plain) = pre ++ [EvExtendDeadline Hour] /\
       trace (fst stopped) = pre ++ [EvConnClose; EvExtendDeadline Hour]).
Proof.
  intros Hstop; simpl. unfold Proto.Sector, Acquire.
  destruct (contractSet w !! contractID hd) as [contract|] eqn:Hacq; simpl.
  2: { repeat split; done. }
  destruct (reaches_exchange SectorSize hd io contract) eqn:Hex.
  - assert (Hex' : reaches_exchange SectorSize hd (with_negotiation_err io None) contract = true)
      by exact Hex.
    rewrite (Sector_acquired_reaches SectorSize MerkleRoot hd io root contract w Hex).
    rewrite (Sector_acquired_reaches SectorSize MerkleRoot hd _ root contract w Hex').
    match goal with |- context [Sector_exchange ?a ?b ?c ?d io ?f] =>
      pose proof (Sector_exchange_stop_same a b c d io f Hstop) as Hsame;
      pose proof (Sector_exchange_session a b c d io f) as (Hs1 & _);
      pose proof (Sector_exchange_session a b c d (with_negotiation_err io None) f) as (Hs2 & _);
      destruct (Sector_exchange a b c d io f) as [[[w1 c1] r1] stop1];
      destruct (Sector_exchange a b c d (with_negotiation_err io None) f) as [[[w2 c2] r2] stop2]
    end.
    simpl in Hsame, Hs1, Hs2. rewrite Hstop in Hs1. simplify_eq/=.
    destruct (result_err r2); simpl.
    all: split; [done|]; split; [done|]; split; [done|]; split; [done|].
    all: intros c Hc _; split; [done|]; exists (trace w2); simpl.
    all: split; [done|by rewrite <- app_assoc].
  - assert (Hsame : Sector_acquired hd io root contract w =
                    Sector_acquired hd (with_negotiation_err io None) root contract w).
    { revert Hex.
      unfold reaches_exchange, funds_suffice, hook_answer, sector_price, Proto.Sector_acquired.
      simpl.
      destruct (Cmp _ _ <? 0); simpl; [done|].
      destruct (startDownload_err io); simpl; [done|].
      destruct (SaveFn hd) as [save|]; simpl; [destruct (save _ _); simpl; [done|]|].
      all: destruct (WriteObject_err io); simpl; [done|].
      all: rewrite ?bool_decide_eq_true_2 by done; done. }
    rewrite <- Hsame.
    destruct (Sector_acquired hd io root contract w) as [[w1 c1] r1]; simpl.
    split; [done|]. split; [done|]. split; [done|]. split; [done|].
    intros c Hc Hex'. congruence.
Qed.

(** Where an error comes from.  Every error [Sector] returns is either
    one of the five it makes itself or, unchanged, the error of the
    settings round-trip, of the persistence hook, of sending the download
    action, of the revision negotiation or of reading the payload.  The
    negotiation's [ErrStopResponse] is never returned. *)
Theorem Sector_error_origin hd io root w e :
  result_err (snd (Sector hd io root w)) = Some e ->
  e ∈ Sector_errors \/
  startDownload_err io = Some e \/
  (exists c, contractSet w !! contractID hd = Some c /\
             hook_answer SectorSize hd c = Some e) \/
  WriteObject_err io = Some e \/
  (snd (negotiateRevision_ret io) = Some e /\ e <> ErrStopResponse) \/
  ReadObject_ret io = inl e.
Proof.
  unfold Proto.Sector, Acquire.
  destruct (contractSet w !! contractID hd) as [contract|] eqn:Hacq; simpl.
  2: { intros [= <-]. left. by apply (bool_decide_unpack _); vm_compute. }
  unfold Proto.Sector_acquired, hook_answer, sector_price.
  destruct (Cmp _ _ <? 0); simpl.
  { intros [= <-]. left. by apply (bool_decide_unpack _); vm_compute. }
  destruct (startDownload_err io) as [e0|]; simpl.
  { intros [= <-]. auto. }
  destruct (SaveFn hd) as [save|]; simpl.
  1: destruct (save _ _) as [e0|] eqn:Hsave; simpl;
    [intros [= <-]; right; right; left; exists contract; by rewrite Hsave|].
  all: destruct (WriteObject_err io) as [e0|]; simpl; [intros [= <-]; auto|].
  all: unfold Proto.Sector_exchange.
  all: destruct (negotiateRevision_ret io) as [txn [e0|]]; simpl.
  all: try destruct (bool_decide_reflect (Some e0 = Some ErrStopResponse)) as [Hs|Hs]; simpl.
  all: try (intros [= <-]; right; right; right; right; left; split; [done|congruence]).
  all: destruct (ReadObject_ret io) as [e1|sectors]; simpl;
    [intros [= <-]; right; right; right; right; right; done|].
  all: destruct (negb (List.length sectors =? 1)%nat); simpl;
    [intros [= <-]; left; by apply (bool_decide_unpack _); vm_compute|].
  all: destruct (negb (Z.of_nat _ =? SectorSize)); simpl;
    [intros [= <-]; left; by apply (bool_decide_unpack _); vm_compute|].
  all: destruct (negb (bool_decide _)); simpl;
    [intros [= <-]; left; by apply (bool_decide_unpack _); vm_compute|].
  all: discriminate.
Qed.

(** Splits a membership in an explicit list of actions into its cases
    and drops those that differ by the constructor. *)
Ltac event_split H :=
  repeat first
    [ apply elem_of_nil in H; destruct H
    | apply elem_of_cons in H as [H|H]; [try discriminate H|]
    | apply elem_of_app in H as [H|H] ].

(** Tries the prefix lengths up to that of the whole protocol. *)
Ltac prefix_length tac :=
  first [ exists 0%nat; tac | exists 1%nat; tac | exists 2%nat; tac | exists 3%nat; tac
        | exists 4%nat; tac | exists 5%nat; tac | exists 6%nat; tac | exists 7%nat; tac
        | exists 8%nat; tac | exists 9%nat; tac ].

(** The actions of a call are a beginning of the protocol's fixed
    sequence, then the closing of the connection if the host stopped
    gracefully, then the deadline reset. *)
Lemma Sector_trace_shape hd io root w c :
  contractSet w !! contractID hd = Some c ->
  exists n,
    trace (fst (Sector hd io root w)) =
      trace w ++ take n (protocol_events SectorSize hd root c)
        ++ (if stopped_gracefully SectorSize hd io c then [EvConnClose] else [])
        ++ [EvExtendDeadline Hour] /\
    (result_err (snd (Sector hd io root w)) = None ->
       n = List.length (protocol_events SectorSize hd root c)) /\
    (n = 0%nat <-> funds_suffice SectorSize hd c = false).
Proof.
  intros Hacq. unfold Proto.Sector, Acquire. rewrite Hacq.
  unfold stopped_gracefully, reaches_exchange, funds_suffice, hook_answer, protocol_events,
    sector_price, Proto.Sector_acquired, Proto.Sector_exchange.
  destruct (Cmp _ _ <? 0); simpl.
  { exists 0%nat. done. }
  destruct (startDownload_err io) as [e0|]; simpl.
  { exists 2%nat. destruct (SaveFn hd); simpl; rewrite <- !app_assoc; done. }
  destruct (SaveFn hd) as [save|]; simpl.
  1: destruct (save _ _) as [e0|]; simpl;
    [exists 3%nat; simpl; rewrite <- !app_assoc; done|].
  all: destruct (WriteObject_err io) as [e0|]; simpl;
    [prefix_length ltac:(simpl; rewrite <- !app_assoc; done)|].
  all: destruct (negotiateRevision_ret io) as [txn [e0|]]; simpl.
  all: try destruct (bool_decide_reflect (Some e0 = Some ErrStopResponse)) as [Hs|Hs]; simpl.
  all: try (prefix_length ltac:(simpl; rewrite <- !app_assoc; done)).
  all: destruct (ReadObject_ret io) as [e1|sectors]; simpl;
    [prefix_length ltac:(simpl; rewrite <- !app_assoc; done)|].
  all: destruct (negb (List.length sectors =? 1)%nat); simpl;
    [prefix_length ltac:(simpl; rewrite <- !app_assoc; done)|].
  all: destruct (negb (Z.of_nat _ =? SectorSize)); simpl;
    [prefix_length ltac:(simpl; rewrite <- !app_assoc; done)|].
  all: destruct (negb (bool_decide _)); simpl;
    prefix_length ltac:(simpl; rewrite <- !app_assoc; done).
Qed.


(** No action of [shutdown] is among the actions of the protocol. *)
Lemma protocol_events_no_shutdown hd root c e :
  e ∈ [EvVerifySettings; EvWriteNegotiationStop; EvCloseChan] ->
  e ∉ protocol_events SectorSize hd root c.
Proof.
  intros He Hin. unfold protocol_events in Hin.
  destruct (SaveFn hd); simpl in Hin;
    repeat (apply elem_of_cons in He as [->|He]; [event_split Hin|]);
    by apply elem_of_nil in He.
Qed.

(** A call performs no step of the shutdown sequence. *)
Lemma Sector_no_shutdown hd io root w :
  exists evs,
    trace (fst (Sector hd io root w)) = trace w ++ evs /\
    forall e, e ∈ [EvVerifySettings; EvWriteNegotiationStop; EvCloseChan] ->
      occurrences e evs = 0%nat.
Proof.
  destruct (contractSet w !! contractID hd) as [c|] eqn:Hacq.
  - destruct (Sector_trace_shape hd io root w c Hacq) as (n & Htr & _).
    eexists; split; [exact Htr|]. intros e He.
    apply count_occ_not_In. rewrite <- list_elem_of_In. intros Hin.
    apply elem_of_app in Hin as [Hin|Hin].
    + apply (protocol_events_no_shutdown hd root c e He).
      eapply list_elem_of_lookup in Hin as (i & Hi).
      apply lookup_take_Some in Hi as [Hi _]. by eapply list_elem_of_lookup_2.
    + destruct (stopped_gracefully SectorSize hd io c); simpl in Hin;
        repeat (apply elem_of_cons in He as [->|He]; [event_split Hin|]);
        by apply elem_of_nil in He.
  - unfold Proto.Sector, Acquire. rewrite Hacq. simpl.
    eexists; split; [reflexivity|]. intros e He.
    repeat (apply elem_of_cons in He as [->|He]; [done|]); by apply elem_of_nil in He.
Qed.

End SectorFurther.

(** * Properties of [Downloader.Close] *)

Section CloseProperties.
Import Proto.

(** The first [Close] of a session whose channel is still open runs
    [shutdown] and closes the connection. *)
Lemma Close_first w :
  onceDone w = false -> closeChanClosed w = false ->
  exists err,
    snd (Close w) = Returned err /\
    onceDone (fst (Close w)) = true /\
    trace (fst (Close w)) = trace w ++ shutdown_events ++ [EvConnClose].
Proof.
  intros Honce Hchan. unfold Close, once_Do, shutdown. rewrite Honce; simpl. rewrite Hchan; simpl.
  eexists. split; [reflexivity|]. split; [reflexivity|].
  by rewrite <- !app_assoc.
Qed.

(** Every later [Close] skips [shutdown] and only closes the connection
    again. *)
Lemma Close_again w :
  onceDone w = true ->
  exists err,
    snd (Close w) = Returned err /\
    onceDone (fst (Close w)) = true /\
    trace (fst (Close w)) = trace w ++ [EvConnClose].
Proof.
  intros Honce. unfold Close, once_Do. rewrite Honce; simpl. eauto.
Qed.

Lemma Close_times_again n w :
  onceDone w = true ->
  List.length (snd (Close_times n w)) = n /\
  Forall (fun r => r <> Panicked) (snd (Close_times n w)) /\
  trace (fst (Close_times n w)) = trace w ++ replicate n EvConnClose.
Proof.
  revert w. induction n as [|n IH]; intros w Honce; simpl.
  - by rewrite app_nil_r.
  - destruct (Close_again w Honce) as (err & Hret & Honce' & Htr).
    destruct (Close w) as [w1 r]; simpl in *; subst r.
    destruct (IH w1 Honce') as (Hlen & Hok & Htr').
    destruct (Close_times n w1) as [w2 rs]; simpl in *.
    split; [by rewrite Hlen|]. split; [by constructor|].
    rewrite Htr', Htr, <- app_assoc. done.
Qed.

Lemma occurrences_app e l1 l2 :
  occurrences e (l1 ++ l2) = (occurrences e l1 + occurrences e l2)%nat.
Proof. apply count_occ_app. Qed.

Lemma occurrences_replicate e e' n :
  e <> e' -> occurrences e (replicate n e') = 0%nat.
Proof.
  intros Hne. induction n as [|n IH]; simpl; [done|].
  unfold occurrences in *; simpl. destruct (Event_eq_dec e' e); [congruence|done].
Qed.

(** C9.  However often [Close] is called on a session whose guard has
    not fired while its channel is still open (every session
    [NewDownloader] returns), no call faults, every call returns, and
    over all the calls together each step of the shutdown sequence (the
    settings round-trip, the stop message, closing the watcher's channel)
    happens at most once; exactly once if the guard was unused and there
    was a call at all. *)
Theorem Close_idempotent n w :
  (onceDone w = false -> closeChanClosed w = false) ->
  let w' := fst (Close_times n w) in
  let rs := snd (Close_times n w) in
  List.length rs = n /\
  Forall (fun r => r <> Panicked) rs /\
  exists evs,
    trace w' = trace w ++ evs /\
    Forall (fun e => (occurrences e evs <= 1)%nat)
           [EvVerifySettings; EvWriteNegotiationStop; EvCloseChan] /\
    (onceDone w = false -> (0 < n)%nat ->
     Forall (fun e => occurrences e evs = 1%nat)
            [EvVerifySettings; EvWriteNegotiationStop; EvCloseChan]).
Proof.
  intros Hinv; simpl.
  destruct (onceDone w) eqn:Honce.
  - destruct (Close_times_again n w Honce) as (Hlen & Hok & Htr).
    split; [done|]. split; [done|].
    exists (replicate n EvConnClose). split; [done|]. split; [|done].
    repeat constructor; rewrite occurrences_replicate; done.
  - specialize (Hinv eq_refl). destruct n as [|n]; simpl.
    + split; [done|]. split; [constructor|].
      exists []. rewrite app_nil_r. split; [done|]. split; [|lia].
      repeat constructor.
    + destruct (Close_first w Honce Hinv) as (err & Hret & Honce' & Htr).
      destruct (Close w) as [w1 r]; simpl in *; subst r.
      destruct (Close_times_again n w1 Honce') as (Hlen & Hok & Htr').
      destruct (Close_times n w1) as [w2 rs]; simpl in *.
      split; [by rewrite Hlen|]. split; [by constructor|].
      exists (shutdown_events ++ [EvConnClose] ++ replicate n EvConnClose).
      split; [rewrite Htr', Htr, <- !app_assoc; done|].
      assert (Hone : Forall (fun e => occurrences e
                 (shutdown_events ++ [EvConnClose] ++ replicate n EvConnClose) = 1%nat)
               [EvVerifySettings; EvWriteNegotiationStop; EvCloseChan]).
      { repeat constructor; rewrite !occurrences_app, occurrences_replicate by done;
          reflexivity. }
      split; [|done].
      eapply Forall_impl; [exact Hone|]. simpl. intros e He. by rewrite He.
Qed.

End CloseProperties.

(** * Properties of [NewDownloader] *)

Section ConstructionProperties.
Import Proto.

Variable SectorSize : Z.
Variable Error : error -> string.

Local Abbreviation NewDownloader := (Proto.NewDownloader SectorSize Error).

(** The dial phase touches neither the contract set nor the counters;
    it hands over a downloader exactly when it reports no error, and
    then the session is new: connection and channel open, guard
    unused. *)
Lemma NewDownloader_dial_spec host id io w :
  let res := NewDownloader_dial Error host id io w in
  let w' := fst (fst res) in
  contractSet w' = contractSet w /\
  successfulInteractions w' = successfulInteractions w /\
  failedInteractions w' = failedInteractions w /\
  (snd res = None <-> is_Some (snd (fst res))) /\
  (snd res = None ->
     connClosed w' = false /\ onceDone w' = false /\ closeChanClosed w' = false).
Proof.
  unfold NewDownloader_dial.
  destruct (Dial_err io); simpl.
  { repeat split; try done; try by intros [? ?]. }
  destruct (WriteRPC_err io); simpl.
  { repeat split; try done; try by intros [? ?]. }
  destruct (verifyRecentRevision_err io); simpl.
  { repeat split; try done; try by intros [? ?]. }
  repeat split; eauto.
Qed.

(** Construction and the host's reputation.  A contract that is absent,
    malformed (not exactly two valid proof outputs) or short of funds for
    one sector at the uninflated price is refused before anything is
    dialled, and no counter moves.  Past these checks exactly one counter
    moves: the success counter when a downloader is returned, the failure
    counter on an error, except that a revision-mismatch error moves
    none.  A returned downloader comes with a new session. *)
Theorem NewDownloader_reputation host id io w :
  let res := NewDownloader host id io w in
  let w' := fst (fst res) in
  let err := snd res in
  (err = None <-> is_Some (snd (fst res))) /\
  (err = None -> onceDone w' = false /\ closeChanClosed w' = false /\ connClosed w' = false) /\
  match contractSet w !! id with
  | Some contract =>
    if (List.length (NewValidProofOutputs (LastRevision contract)) =? 2)%nat
       && negb (Cmp (RenterFunds contract) (Mul64 (DownloadBandwidthPrice host) SectorSize) <? 0)
    then
      match err with
      | None =>
        successfulInteractions w' =
          <[HostPublicKey contract :=
              (interactions (successfulInteractions w) (HostPublicKey contract) + 1)%N]>
            (successfulInteractions w) /\
        failedInteractions w' = failedInteractions w
      | Some e =>
        successfulInteractions w' = successfulInteractions w /\
        failedInteractions w' =
          if IsRevisionMismatch e then failedInteractions w
          else <[HostPublicKey contract :=
                   (interactions (failedInteractions w) (HostPublicKey contract) + 1)%N]>
                 (failedInteractions w)
      end
    else
      err <> None /\ w' = w
  | None => err <> None /\ w' = w
  end.
Proof.
  unfold Proto.NewDownloader.
  destruct (contractSet w !! id) as [contract|]; simpl.
  2: { repeat split; try done; try by intros [? ?]. }
  destruct (List.length _ =? 2)%nat; simpl.
  2: { repeat split; try done; try by intros [? ?]. }
  destruct (Cmp _ _ <? 0); simpl.
  { repeat split; try done; try by intros [? ?]. }
  pose proof (NewDownloader_dial_spec host id io w) as Hdial.
  destruct (NewDownloader_dial Error host id io w) as [[w1 hd] err]; simpl in *.
  destruct Hdial as (Hcs & Hsucc & Hfail & Hhd & Hnew).
  destruct err as [e|]; simpl.
  - split; [done|]. split; [done|].
    destruct (IsRevisionMismatch e); simpl; split; congruence.
  - split; [done|]. split; [by destruct (Hnew eq_refl) as (? & ? & ?)|].
    simpl. split; congruence.
Qed.

End ConstructionProperties.

(** * Further properties of [NewDownloader] *)

Section ConstructionFurther.
Import Proto Session.

Variable SectorSize : Z.
Variable MerkleRoot : list byte -> Hash.
Context {currencySub : CurrencySub}.
Variable Error : error -> string.

Local Abbreviation NewDownloader := (Proto.NewDownloader SectorSize Error).
Local Abbreviation Sector := (Proto.Sector SectorSize MerkleRoot).

(** How construction ends once the contract has passed the checks.
    The contract set is never changed.  A failed dial is returned as it
    is and leaves the session as it was.  After a successful dial every
    failure closes the connection and the watcher's channel before the
    deadline reset; a failure to send the RPC id is reported under the
    prefix "couldn't initiate RPC: " and so is never a revision mismatch,
    a failure of the revision agreement is returned unchanged.  On
    success the downloader carries the contract id and the host entry
    and has no persistence hook. *)
Theorem NewDownloader_outcomes host id io w c :
  contractSet w !! id = Some c ->
  List.length (NewValidProofOutputs (LastRevision c)) = 2%nat ->
  (Cmp (RenterFunds c) (Mul64 (DownloadBandwidthPrice host) SectorSize) <? 0) = false ->
  let res := NewDownloader host id io w in
  let w' := fst (fst res) in
  let err := snd res in
  contractSet w' = contractSet w /\
  (forall e, Dial_err io = Some e ->
     err = Some e /\ trace w' = trace w ++ [EvDial] /\
     connClosed w' = connClosed w /\ closeChanClosed w' = closeChanClosed w /\
     onceDone w' = onceDone w) /\
  (Dial_err io = None -> forall e, WriteRPC_err io = Some e ->
     err = Some (errors_New ("couldn't initiate RPC: " +:+ Error e)) /\
     failedInteractions w' =
       <[HostPublicKey c := (interactions (failedInteractions w) (HostPublicKey c) + 1)%N]>
         (failedInteractions w)) /\
  (Dial_err io = None -> WriteRPC_err io = None ->
     forall e, verifyRecentRevision_err io = Some e -> err = Some e) /\
  (Dial_err io = None -> err <> None ->
     connClosed w' = true /\ closeChanClosed w' = true /\
     exists pre, trace w' = pre ++ [EvConnClose; EvCloseChan; EvExtendDeadline Hour]) /\
  (err = None ->
     snd (fst res) = Some {| contractID := id; host := host; SaveFn := None |} /\
     trace w' = trace w ++ [EvDial; EvExtendDeadline NegotiateRecentRevisionTime;
                            EvWriteRPCDownload; EvVerifyRecentRevision;
                            EvExtendDeadline Hour]).
Proof.
  intros Hc Hlen Hfunds; simpl. unfold Proto.NewDownloader, NewDownloader_dial.
  rewrite Hc, Hlen, Hfunds. cbn [negb Nat.eqb].
  destruct (Dial_err io) as [e1|]; cbn -[String.append].
  { destruct (IsRevisionMismatch e1); cbn.
    all: split; [done|]; split; [by intros e [= <-]|].
    all: split; [done|]; split; [done|]; split; [done|]; done. }
  destruct (WriteRPC_err io) as [e2|]; cbn -[String.append].
  { split; [reflexivity|]. split; [discriminate|].
    split; [intros _ e [= <-]; split; reflexivity|]. split; [discriminate|].
    split; [|discriminate]. intros _ _. split; [reflexivity|]. split; [reflexivity|].
    exists (trace w ++ [EvDial; EvExtendDeadline NegotiateRecentRevisionTime;
                        EvWriteRPCDownload]).
    rewrite <- !app_assoc. reflexivity. }
  destruct (verifyRecentRevision_err io) as [e3|]; cbn -[String.append].
  { destruct (IsRevisionMismatch e3); cbn -[String.append].
    all: split; [reflexivity|]; split; [discriminate|]; split; [discriminate|].
    all: split; [by intros _ _ e [= <-]|].
    all: split; [|discriminate]; intros _ _; split; [reflexivity|]; split; [reflexivity|].
    all: exists (trace w ++ [EvDial; EvExtendDeadline NegotiateRecentRevisionTime;
                             EvWriteRPCDownload; EvVerifyRecentRevision]).
    all: rewrite <- !app_assoc; reflexivity. }
  split; [reflexivity|]. split; [discriminate|]. split; [discriminate|].
  split; [discriminate|]. split; [done|]. intros _. split; [reflexivity|].
  rewrite <- !app_assoc. reflexivity.
Qed.

(** Construction vouches for the first call.  On the state a successful
    [NewDownloader] leaves behind, [Sector] on the returned downloader
    finds the contract and passes the funds check, whatever is asked for:
    it always gets as far as the settings round-trip with the host. *)
Theorem NewDownloader_then_Sector host id dio w io root :
  snd (NewDownloader host id dio w) = None ->
  exists hd c,
    snd (fst (NewDownloader host id dio w)) = Some hd /\
    contractSet (fst (fst (NewDownloader host id dio w))) !! contractID hd = Some c /\
    funds_suffice SectorSize hd c = true /\
    exists rest,
      trace (fst (Sector hd io root (fst (fst (NewDownloader host id dio w))))) =
        trace (fst (fst (NewDownloader host id dio w)))
          ++ EvExtendDeadline NegotiateSettingsTime :: EvStartDownload :: rest.
Proof.
  unfold Proto.NewDownloader.
  destruct (contractSet w !! id) as [c|] eqn:Hc; simpl; [|done].
  destruct (List.length _ =? 2)%nat; simpl; [|done].
  destruct (Cmp _ _ <? 0) eqn:Hfunds; simpl; [done|].
  pose proof (NewDownloader_dial_spec Error host id dio w) as Hdial.
  assert (Hhd : snd (NewDownloader_dial Error host id dio w) = None ->
     snd (fst (NewDownloader_dial Error host id dio w))
       = Some {| contractID := id; host := host; SaveFn := None |}).
  { unfold NewDownloader_dial. repeat case_match; simplify_eq/=; done. }
  destruct (NewDownloader_dial Error host id dio w) as [[w1 hd] err]; simpl in *.
  destruct Hdial as (Hcs & _). intros ->. rewrite (Hhd eq_refl). simpl.
  set (hd0 := {| contractID := id; host := host; SaveFn := None |}).
  exists hd0, c.
  assert (Hacq : contractSet (IncrementSuccessfulInteractions (HostPublicKey c) w1)
                   !! contractID hd0 = Some c) by (simpl; rewrite Hcs; done).
  assert (Hf : funds_suffice SectorSize hd0 c = true)
    by (unfold funds_suffice; simpl; by rewrite Hfunds).
  split; [done|]. split; [exact Hacq|]. split; [exact Hf|].
  exact (Sector_starts_download SectorSize MerkleRoot hd0 io root _ c Hacq Hf).
Qed.

End ConstructionFurther.

(** * Properties of a whole session *)

Section SessionProperties.
Import Proto Session.

Variable SectorSize : Z.
Variable MerkleRoot : list byte -> Hash.
Context {currencySub : CurrencySub}.

Local Abbreviation Sector := (Proto.Sector SectorSize MerkleRoot).
Local Abbreviation run_ops := (Session.run_ops SectorSize MerkleRoot).

(** [Close] touches neither the contract set nor the host database. *)
Lemma Close_frame w :
  contractSet (fst (Close w)) = contractSet w /\
  successfulInteractions (fst (Close w)) = successfulInteractions w /\
  failedInteractions (fst (Close w)) = failedInteractions w.
Proof.
  unfold Close, once_Do, shutdown.
  destruct (onceDone w); simpl; [done|]. destruct (closeChanClosed w); done.
Qed.

(** Once the guard has fired, no sequence of calls faults or performs a
    step of the shutdown sequence. *)
Lemma run_ops_done ops : forall w,
  onceDone w = true ->
  snd (run_ops ops w) = false /\
  onceDone (fst (run_ops ops w)) = true /\
  exists evs,
    trace (fst (run_ops ops w)) = trace w ++ evs /\
    forall e, e ∈ [EvVerifySettings; EvWriteNegotiationStop; EvCloseChan] ->
      occurrences e evs = 0%nat.
Proof.
  induction ops as [|[hd io root|] ops IH]; intros w Honce; simpl.
  - split; [done|]. split; [done|]. exists []. by rewrite app_nil_r.
  - destruct (Sector_no_shutdown SectorSize MerkleRoot hd io root w) as (evs1 & Htr1 & Hno1).
    assert (Honce1 : onceDone (fst (Sector hd io root w)) = true).
    { unfold Proto.Sector, Acquire.
      destruct (contractSet w !! contractID hd) as [c|]; simpl; [|done].
      destruct (Sector_acquired_session SectorSize MerkleRoot hd io root c w) as (Ho & _).
      destruct (Proto.Sector_acquired _ _ _ _ _ _ _) as [[w1 c1] r1]; simpl in *. congruence. }
    destruct (IH _ Honce1) as (Hok & Honce2 & evs2 & Htr2 & Hno2).
    split; [done|]. split; [done|].
    exists (evs1 ++ evs2). split; [rewrite Htr2, Htr1, <- app_assoc; done|].
    intros e He. rewrite occurrences_app, (Hno1 e He), (Hno2 e He). done.
  - destruct (Close_again w Honce) as (err & Hret & Honce1 & Htr1).
    destruct (Close w) as [w1 r]; simpl in *; subst r.
    destruct (IH _ Honce1) as (Hok & Honce2 & evs2 & Htr2 & Hno2).
    split; [done|]. split; [done|].
    exists ([EvConnClose] ++ evs2). split; [rewrite Htr2, Htr1, <- app_assoc; done|].
    intros e He. rewrite occurrences_app, (Hno2 e He).
    repeat (apply elem_of_cons in He as [->|He]; [done|]); by apply elem_of_nil in He.
Qed.


(** One call and the shared registries: a well-formed contract set stays
    well-formed and keeps its ids, and no counter goes down. *)
Lemma Sector_keeps_registries hd io root w :
  ContractSet_wf w ->
  ContractSet_wf (fst (Sector hd io root w)) /\
  dom (contractSet (fst (Sector hd io root w))) = dom (contractSet w) /\
  forall k,
    (interactions (successfulInteractions w) k
       <= interactions (successfulInteractions (fst (Sector hd io root w))) k)%N /\
    (interactions (failedInteractions w) k
       <= interactions (failedInteractions (fst (Sector hd io root w))) k)%N.
Proof.
  intros Hwf. unfold Proto.Sector, Acquire.
  destruct (contractSet w !! contractID hd) as [c|] eqn:Hacq; simpl.
  2: { split; [done|]. split; [done|]. intros k; split; lia. }
  pose proof (Sector_acquired_spec SectorSize MerkleRoot hd io root c w) as Hspec.
  destruct (Proto.Sector_acquired _ _ _ _ _ _ _) as [[w1 c1] r1]; simpl in *.
  destruct Hspec as (Hcs & Hres & Hrep).
  assert (Hid : ID c1 = contractID hd).
  { rewrite <- (Hwf _ _ Hacq).
    by destruct Hres as [(? & _ & _ & _ & _ & -> & _)|(? & _ & ->)]. }
  split; [|split].
  - intros id c' Hc'. unfold ContractSet_wf in *; simpl in *. rewrite Hcs, Hid in Hc'.
    destruct (decide (id = contractID hd)) as [->|Hne].
    + rewrite lookup_insert_eq in Hc'. congruence.
    + rewrite lookup_insert_ne in Hc' by done. eauto.
  - rewrite Hcs, Hid. apply dom_insert_lookup_L. by rewrite Hacq.
  - intros k.
    destruct (reaches_exchange SectorSize hd io c), (result_err r1);
      destruct Hrep as [H1 H2]; rewrite H1, H2; unfold interactions;
      (destruct (decide (k = HostPublicKey c)) as [->|Hne];
       [rewrite ?lookup_insert_eq|rewrite ?lookup_insert_ne by done]); simpl; split; lia.
Qed.

(** What a session keeps of the shared registries.  Over any sequence of
    [Sector] and [Close] calls a contract set in which every contract is
    filed under its own id stays so, no contract is added to it or
    removed from it, and no reputation counter of any host ever goes
    down. *)
Theorem session_keeps_registries ops w :
  ContractSet_wf w ->
  ContractSet_wf (fst (run_ops ops w)) /\
  dom (contractSet (fst (run_ops ops w))) = dom (contractSet w) /\
  forall k,
    (interactions (successfulInteractions w) k
       <= interactions (successfulInteractions (fst (run_ops ops w))) k)%N /\
    (interactions (failedInteractions w) k
       <= interactions (failedInteractions (fst (run_ops ops w))) k)%N.
Proof.
  revert w. induction ops as [|[hd io root|] ops IH]; intros w Hwf; simpl.
  - split; [done|]. split; [done|]. intros k; split; lia.
  - destruct (Sector_keeps_registries hd io root w Hwf) as (Hwf1 & Hdom1 & Hmono1).
    destruct (IH _ Hwf1) as (Hwf2 & Hdom2 & Hmono2).
    split; [done|]. split; [congruence|].
    intros k. destruct (Hmono1 k), (Hmono2 k). split; lia.
  - destruct (Close_frame w) as (Hcs & Hs & Hf).
    destruct (Close w) as [w1 [err|]]; simpl in *.
    + assert (Hwf1 : ContractSet_wf w1) by (unfold ContractSet_wf in *; rewrite Hcs; done).
      destruct (IH _ Hwf1) as (Hwf2 & Hdom2 & Hmono2).
      split; [done|]. split; [congruence|].
      intros k. destruct (Hmono2 k). rewrite Hs, Hf in *. split; lia.
    + split; [unfold ContractSet_wf in *; rewrite Hcs; done|]. split; [congruence|].
      intros k. rewrite Hs, Hf. split; lia.
Qed.

End SessionProperties.

(** * Properties of the chunk repair path *)

Section RepairProperties.
Import Renter.

Lemma wrap_int_small z : - 2 ^ 63 <= z < 2 ^ 63 -> wrap_int z = z.
Proof. intros Hz. unfold wrap_int. rewrite Z.mod_small; lia. Qed.

(** C7.  [managedFetchAndRepairChunk] hands [managedFetchLogicalChunkData]
    the flag [download_decision chunk].  For piece counts of any
    reasonable size (below 2^62 in absolute value, so that the machine
    arithmetic does not wrap) the threshold is
    [(piecesNeeded - minimumPieces) / 4] with Go's truncating division,
    which is ordinary integer division when [minimumPieces <=
    piecesNeeded], and the flag is set exactly when [piecesCompleted +
    threshold < piecesNeeded].  With 10 pieces needed and a minimum of 6,
    9 completed pieces give a local-only read and 7 a download. *)
Theorem repair_download_decision env chunk s :
  - 2 ^ 62 < piecesNeeded chunk < 2 ^ 62 ->
  - 2 ^ 62 < minimumPieces chunk < 2 ^ 62 ->
  - 2 ^ 62 < piecesCompleted chunk < 2 ^ 62 ->
  managedFetchAndRepairChunk env chunk s =
    repair_fetched env (managedFetchLogicalChunkData env chunk (download_decision chunk) s) /\
  minMissingPiecesToDownload chunk = (piecesNeeded chunk - minimumPieces chunk) ÷ 4 /\
  (minimumPieces chunk <= piecesNeeded chunk ->
     minMissingPiecesToDownload chunk = (piecesNeeded chunk - minimumPieces chunk) / 4) /\
  (download_decision chunk = true <->
     piecesCompleted chunk + (piecesNeeded chunk - minimumPieces chunk) ÷ 4
       < piecesNeeded chunk) /\
  (piecesNeeded chunk = 10 -> minimumPieces chunk = 6 ->
     (piecesCompleted chunk = 9 -> download_decision chunk = false) /\
     (piecesCompleted chunk = 7 -> download_decision chunk = true)).
Proof.
  intros Hn Hm Hc.
  assert (Hthr : minMissingPiecesToDownload chunk =
                 (piecesNeeded chunk - minimumPieces chunk) ÷ 4).
  { unfold minMissingPiecesToDownload. rewrite wrap_int_small; [done|lia]. }
  assert (Hq : - 2 ^ 61 <= (piecesNeeded chunk - minimumPieces chunk) ÷ 4 <= 2 ^ 61).
  { pose proof (Z.quot_rem' (piecesNeeded chunk - minimumPieces chunk) 4) as Hqr.
    pose proof (Z.rem_bound_abs (piecesNeeded chunk - minimumPieces chunk) 4). lia. }
  assert (Hdec : download_decision chunk = true <->
     piecesCompleted chunk + (piecesNeeded chunk - minimumPieces chunk) ÷ 4
       < piecesNeeded chunk).
  { unfold download_decision. rewrite Hthr, wrap_int_small by lia. apply Z.ltb_lt. }
  split; [reflexivity|]. split; [exact Hthr|]. split.
  - intros Hle. rewrite Hthr. apply Z.quot_div_nonneg; lia.
  - split; [exact Hdec|]. intros H10 H6. rewrite H10, H6 in Hdec.
    change ((10 - 6) ÷ 4) with 1 in Hdec. split; intros Hcomp; rewrite Hcomp in Hdec.
    + apply not_true_is_false. rewrite Hdec. lia.
    + apply Hdec. lia.
Qed.

(** A download adds its own request to the trace and nothing else, and
    leaves the memory accountant and the piece-usage flags alone. *)
Lemma managedDownloadLogicalChunkData_frame env chunk s :
  let res := managedDownloadLogicalChunkData env chunk s in
  trace (fst (fst res)) =
    trace s ++ [EvNewSectionDownload (wrap_uint64 (offset chunk)) (length chunk)] /\
  memoryAvailable (fst (fst res)) = memoryAvailable s /\
  pieceUsage (snd (fst res)) = pieceUsage chunk.
Proof.
  unfold managedDownloadLogicalChunkData. destruct (download_outcome env); done.
Qed.

(** The fetch only asks the disk and, when allowed, the download
    subsystem. *)
Lemma managedFetchLogicalChunkData_frame env chunk download s :
  let res := managedFetchLogicalChunkData env chunk download s in
  exists evs,
    trace (fst (fst res)) = trace s ++ evs /\
    (forall e, e ∈ evs ->
       (exists o l, e = EvNewSectionDownload o l /\ download = true) \/
       (exists path, e = EvOpen path) \/ (exists path o n, e = EvReadAt path o n)) /\
    memoryAvailable (fst (fst res)) = memoryAvailable s /\
    pieceUsage (snd (fst res)) = pieceUsage chunk.
Proof.
  unfold managedFetchLogicalChunkData.
  case_bool_decide as Hpath; destruct download; simpl.
  - destruct (managedDownloadLogicalChunkData_frame env chunk s) as (Htr & Hmem & Huse).
    eexists; split; [exact Htr|]. split; [|done].
    intros e He. apply list_elem_of_singleton in He. left; eauto.
  - exists []. rewrite app_nil_r. split; [done|]. split; [|done].
    intros e He. by apply elem_of_nil in He.
  - destruct (os_Open env (localPath chunk)) as [err|]; simpl.
    + match goal with |- context [managedDownloadLogicalChunkData ?a ?b ?c] =>
        destruct (managedDownloadLogicalChunkData_frame a b c) as (Htr & Hmem & Huse) end.
      simpl in *. rewrite <- app_assoc in Htr.
      eexists; split; [exact Htr|]. split; [|done].
      intros e He. simpl in He.
      apply elem_of_cons in He as [->|He]; [right; left; eauto|].
      apply list_elem_of_singleton in He. left; eauto.
    + destruct (file_ReadAt env _ _ _) as [data [err|]]; simpl.
      * match goal with |- context [managedDownloadLogicalChunkData ?a ?b ?c] =>
          destruct (managedDownloadLogicalChunkData_frame a b c) as (Htr & Hmem & Huse) end.
        simpl in *. rewrite <- !app_assoc in Htr.
        eexists; split; [exact Htr|]. split; [|done].
        intros e He. simpl in He.
        apply elem_of_cons in He as [->|He]; [right; left; eauto|].
        apply elem_of_cons in He as [->|He]; [right; right; eauto|].
        apply list_elem_of_singleton in He. left; eauto.
      * rewrite <- !app_assoc. eexists; split; [reflexivity|]. split; [|done].
        intros e He. simpl in He.
        apply elem_of_cons in He as [->|He]; [right; left; eauto|].
        apply list_elem_of_singleton in He. right; right; eauto.
  - destruct (os_Open env (localPath chunk)) as [err|]; simpl.
    + eexists; split; [reflexivity|]. split; [|done].
      intros e He. apply list_elem_of_singleton in He. right; left; eauto.
    + destruct (file_ReadAt env _ _ _) as [data [err|]]; simpl.
      all: rewrite <- !app_assoc; eexists; (split; [reflexivity|]); (split; [|done]).
      all: intros e He; simpl in He.
      all: apply elem_of_cons in He as [->|He]; [right; left; eauto|].
      all: apply list_elem_of_singleton in He; right; right; eauto.
Qed.

(** C8.  A network download is queued only when [download] is set.
    With [download = false] a chunk without a local path fails with
    "file not available locally", and a failing open or read of the local
    file fails with the underlying error extended by the step that
    failed. *)
Theorem fetch_without_download env chunk download s :
  let res := managedFetchLogicalChunkData env chunk download s in
  let err := snd res in
  exists evs,
    trace (fst (fst res)) = trace s ++ evs /\
    ((exists o l, EvNewSectionDownload o l ∈ evs) -> download = true) /\
    (download = false ->
       (localPath chunk = "" -> err = Some (errors_New "file not available locally")) /\
       (localPath chunk <> "" -> forall e, os_Open env (localPath chunk) = Some e ->
          err = Some (errors_Extend e (errors_New "failed to open file locally"))) /\
       (localPath chunk <> "" -> os_Open env (localPath chunk) = None ->
        forall data e,
          file_ReadAt env (localPath chunk) (offset chunk) (Z.to_nat (length chunk))
            = (data, Some e) ->
          err = Some (errors_Extend e (errors_New "failed to read file locally")))).
Proof.
  simpl.
  destruct (managedFetchLogicalChunkData_frame env chunk download s)
    as (evs & Htr & Hevs & _ & _).
  exists evs. split; [exact Htr|]. split.
  - intros (o & l & Hin). destruct (Hevs _ Hin) as [(? & ? & _ & ?)|[(? & ?)|(? & ? & ? & ?)]];
      [done|discriminate|discriminate].
  - intros ->. unfold managedFetchLogicalChunkData. rewrite andb_false_r.
    split; [|split].
    + intros Hpath. by rewrite bool_decide_eq_true_2.
    + intros Hpath e Hopen. rewrite bool_decide_eq_false_2 by done. simpl.
      by rewrite Hopen.
    + intros Hpath Hopen data e Hread. rewrite bool_decide_eq_false_2 by done. simpl.
      rewrite Hopen, length_replicate, Hread. done.
Qed.

(** C10.  When the fetch succeeds, the encoding succeeds, and the
    encoder returned fewer pieces than there are piece-usage flags, the
    repair stops at the sanity check: the logical buffer has been
    dropped, the critical message is logged, and neither the memory
    accountant is credited nor any worker given the chunk. *)
Theorem repair_sanity_failure_no_credit env chunk s s1 chunk1 pieces :
  managedFetchLogicalChunkData env chunk (download_decision chunk) s = (s1, chunk1, None) ->
  erasureCode_Encode env (logicalChunkData chunk1) = (pieces, None) ->
  (List.length pieces < List.length (pieceUsage chunk))%nat ->
  let s' := fst (managedFetchAndRepairChunk env chunk s) in
  let chunk' := snd (managedFetchAndRepairChunk env chunk s) in
  logicalChunkData chunk' = [] /\
  physicalChunkData chunk' = pieces /\
  memoryAvailable s' = memoryAvailable s /\
  exists evs,
    trace s' = trace s ++ evs ++
      [EvEncode;
       EvLogCritical "not enough physical pieces to match the upload settings of the file"] /\
    (forall amount, EvMemoryAvailableAdd amount ∉
       evs ++ [EvEncode;
               EvLogCritical "not enough physical pieces to match the upload settings of the file"]) /\
    (forall w, EvQueueChunkRepair w ∉
       evs ++ [EvEncode;
               EvLogCritical "not enough physical pieces to match the upload settings of the file"]).
Proof.
  intros Hfetch Henc Hfew; simpl.
  destruct (managedFetchLogicalChunkData_frame env chunk (download_decision chunk) s)
    as (evs & Htr & Hevs & Hmem & Huse).
  unfold managedFetchAndRepairChunk. rewrite Hfetch in *. simpl in *.
  rewrite Henc; simpl. rewrite Huse.
  apply Nat.ltb_lt in Hfew. rewrite Hfew; simpl.
  split; [done|]. split; [done|]. split; [done|].
  exists evs. split; [rewrite Htr, <- !app_assoc; done|].
  split.
  - intros amount Hin. apply elem_of_app in Hin as [Hin|Hin].
    + destruct (Hevs _ Hin) as [(? & ? & ? & _)|[(? & ?)|(? & ? & ? & ?)]]; discriminate.
    + apply elem_of_cons in Hin as [Hin|Hin]; [discriminate|].
      apply list_elem_of_singleton in Hin. discriminate.
  - intros w Hin. apply elem_of_app in Hin as [Hin|Hin].
    + destruct (Hevs _ Hin) as [(? & ? & ? & _)|[(? & ?)|(? & ? & ? & ?)]]; discriminate.
    + apply elem_of_cons in Hin as [Hin|Hin]; [discriminate|].
      apply list_elem_of_singleton in Hin. discriminate.
Qed.

Lemma wrap_uint64_add_l a b : wrap_uint64 (wrap_uint64 a + b) = wrap_uint64 (a + b).
Proof. unfold wrap_uint64. apply Zplus_mod_idemp_l. Qed.

(** The index loop, started at index [k] with the first [k] flags and
    pieces already handled, does to the remaining pieces what
    [drop_used] says and adds what [used_bytes] says, modulo 2^64. *)
Lemma release_loop usage_rest : forall usage_pre pre rest freed,
  List.length usage_pre = List.length pre ->
  (List.length usage_rest <= List.length rest)%nat ->
  exists freed',
    foldl (release_piece (usage_pre ++ usage_rest)) (pre ++ rest, freed)
          (seq (List.length pre) (List.length usage_rest))
      = (pre ++ drop_used usage_rest rest, freed') /\
    wrap_uint64 freed' = wrap_uint64 (freed + used_bytes usage_rest rest).
Proof.
  induction usage_rest as [|u us IH]; intros usage_pre pre rest freed Hpre Hlen; simpl.
  - exists freed. split; [by destruct rest|]. by rewrite Z.add_0_r.
  - destruct rest as [|p ps]; simpl in Hlen; [lia|].
    assert (Hu : (usage_pre ++ u :: us) !! List.length pre = Some u).
    { rewrite <- Hpre. by rewrite list_lookup_middle. }
    assert (Hp : (pre ++ p :: ps) !! List.length pre = Some p)
      by (by rewrite list_lookup_middle).
    unfold release_piece at 2. simpl. rewrite Hu; simpl.
    destruct u; simpl.
    + rewrite Hp; simpl.
      replace (<[List.length pre := []]> (pre ++ p :: ps)) with (pre ++ [] :: ps).
      2: { replace (List.length pre) with (List.length pre + 0)%nat at 1 by lia.
           by rewrite insert_app_r. }
      destruct (IH (usage_pre ++ [true]) (pre ++ [[]]) ps
                  (wrap_uint64 (freed + Z.of_nat (List.length p))))
        as (freed' & Hloop & Hfreed).
      { rewrite !length_app; simpl. lia. }
      { lia. }
      rewrite length_app in Hloop; simpl in Hloop.
      rewrite <- !app_assoc in Hloop; simpl in Hloop.
      replace (List.length pre + 1)%nat with (S (List.length pre)) in Hloop by lia.
      exists freed'. split; [exact Hloop|].
      rewrite Hfreed, wrap_uint64_add_l. f_equal. lia.
    + destruct (IH (usage_pre ++ [false]) (pre ++ [p]) ps freed) as (freed' & Hloop & Hfreed).
      { rewrite !length_app; simpl. lia. }
      { lia. }
      rewrite length_app in Hloop; simpl in Hloop.
      rewrite <- !app_assoc in Hloop; simpl in Hloop.
      replace (List.length pre + 1)%nat with (S (List.length pre)) in Hloop by lia.
      exists freed'. split; [exact Hloop|exact Hfreed].
Qed.

Lemma release_used_pieces_spec usage pieces freed :
  (List.length usage <= List.length pieces)%nat ->
  exists freed',
    release_used_pieces usage pieces freed = (drop_used usage pieces, freed') /\
    wrap_uint64 freed' = wrap_uint64 (freed + used_bytes usage pieces).
Proof.
  intros Hlen. unfold release_used_pieces.
  exact (release_loop usage [] [] pieces freed eq_refl Hlen).
Qed.

Lemma queue_all_frame workers : forall s,
  trace (queue_all workers s) = trace s ++ map EvQueueChunkRepair workers /\
  memoryAvailable (queue_all workers s) = memoryAvailable s.
Proof.
  unfold queue_all. induction workers as [|w ws IH]; intros s; simpl.
  - by rewrite app_nil_r.
  - destruct (IH (emit (EvQueueChunkRepair w) s)) as [Htr Hmem].
    rewrite Htr, Hmem; simpl. by rewrite <- app_assoc.
Qed.

(** A repair that goes through.  When the fetch and the encoding
    succeed and there are at least as many pieces as piece-usage flags,
    the chunk ends with its logical buffer dropped, every flagged piece
    emptied and every other piece kept; the accountant is credited once,
    with the size of the logical buffer plus the sizes of the flagged
    pieces (modulo 2^64), and then every worker of the pool is handed the
    chunk, in order. *)
Theorem repair_success_credits_memory env chunk s s1 chunk1 pieces :
  managedFetchLogicalChunkData env chunk (download_decision chunk) s = (s1, chunk1, None) ->
  erasureCode_Encode env (logicalChunkData chunk1) = (pieces, None) ->
  (List.length (pieceUsage chunk) <= List.length pieces)%nat ->
  let s' := fst (managedFetchAndRepairChunk env chunk s) in
  let chunk' := snd (managedFetchAndRepairChunk env chunk s) in
  logicalChunkData chunk' = [] /\
  physicalChunkData chunk' = drop_used (pieceUsage chunk) pieces /\
  exists freed,
    wrap_uint64 freed =
      wrap_uint64 (Z.of_nat (List.length (logicalChunkData chunk1))
                   + used_bytes (pieceUsage chunk) pieces) /\
    trace s' = trace s1 ++ [EvEncode; EvMemoryAvailableAdd freed]
                 ++ map EvQueueChunkRepair (workerPool env) /\
    memoryAvailable s' = wrap_uint64 (memoryAvailable s + freed).
Proof.
  intros Hfetch Henc Hlen; simpl.
  destruct (managedFetchLogicalChunkData_frame env chunk (download_decision chunk) s)
    as (evs & Htr & Hevs & Hmem & Huse).
  unfold managedFetchAndRepairChunk. rewrite Hfetch in *. simpl in *.
  rewrite Henc; simpl. rewrite Huse.
  apply Nat.ltb_ge in Hlen. rewrite Hlen; simpl.
  apply Nat.ltb_ge in Hlen.
  destruct (release_used_pieces_spec (pieceUsage chunk) pieces
              (Z.of_nat (List.length (logicalChunkData chunk1))) Hlen)
    as (freed & Hloop & Hfreed).
  rewrite Hloop; simpl.
  match goal with |- context [queue_all ?ws ?st] =>
    destruct (queue_all_frame ws st) as [Hq Hqm] end.
  split; [done|]. split; [done|].
  exists freed. split; [exact Hfreed|].
  rewrite Hq, Hqm; simpl. rewrite Hmem, <- !app_assoc. done.
Qed.

End RepairProperties.

(** * Further properties of the chunk repair path *)

Section RepairFurther.
Import Renter.

(** The rule of the source comment, "only download this file if more
    than 25% of the redundancy is missing".  For sensible piece counts
    (0 <= minimumPieces <= piecesNeeded, all below 2^62) the download
    flag is set exactly when four times the number of missing pieces
    exceeds the redundancy [piecesNeeded - minimumPieces].  So a chunk
    with all its pieces is never downloaded, and a chunk at or below its
    reconstruction minimum always is, as soon as there is any
    redundancy. *)
Theorem download_rule_quarter_of_redundancy chunk :
  0 <= minimumPieces chunk <= piecesNeeded chunk ->
  piecesNeeded chunk < 2 ^ 62 ->
  0 <= piecesCompleted chunk < 2 ^ 62 ->
  (download_decision chunk = true <->
     piecesNeeded chunk - minimumPieces chunk
       < 4 * (piecesNeeded chunk - piecesCompleted chunk)) /\
  (piecesNeeded chunk <= piecesCompleted chunk -> download_decision chunk = false) /\
  (piecesCompleted chunk <= minimumPieces chunk -> minimumPieces chunk < piecesNeeded chunk ->
     download_decision chunk = true).
Proof.
  intros Hm Hn Hc.
  set (R := piecesNeeded chunk - minimumPieces chunk).
  assert (Hq : R ÷ 4 = R / 4) by (apply Z.quot_div_nonneg; lia).
  pose proof (Z.div_mod R 4 ltac:(lia)) as Hdm.
  pose proof (Z.mod_pos_bound R 4 ltac:(lia)) as Hmod.
  assert (Hdec : download_decision chunk = true <->
                 R < 4 * (piecesNeeded chunk - piecesCompleted chunk)).
  { unfold download_decision, minMissingPiecesToDownload. fold R.
    rewrite (wrap_int_small R) by lia. rewrite Hq, wrap_int_small by lia.
    rewrite Z.ltb_lt. lia. }
  split; [exact Hdec|]. split.
  - intros Hfull. apply not_true_is_false. rewrite Hdec. lia.
  - intros Hlow Hred. apply Hdec. lia.
Qed.

Lemma read_into_length (buf data : list byte) :
  List.length (read_into buf data) = List.length buf.
Proof. unfold read_into. rewrite length_app, length_take, length_drop. lia. Qed.

(** Falling back to the network.  With downloads allowed, a chunk that
    has no local path or whose local file cannot be opened or read is
    fetched by exactly one download request, queued last, for the
    chunk's offset and length; the outcome of the fetch is the outcome of
    that download: its data and its error when it finishes (the data is
    stored even when the download reports an error), the interruption
    error when the renter is stopped first.  Whatever the flag, a local
    read that works returns no error, asks the network for nothing and
    leaves a buffer of exactly [length] bytes. *)
Theorem fetch_falls_back_to_download env chunk s :
  let n := Z.to_nat (length chunk) in
  let local_failed :=
    localPath chunk = "" \/ os_Open env (localPath chunk) <> None \/
    snd (file_ReadAt env (localPath chunk) (offset chunk) n) <> None in
  (local_failed ->
     let res := managedFetchLogicalChunkData env chunk true s in
     (exists pre,
        trace (fst (fst res)) =
          pre ++ [EvNewSectionDownload (wrap_uint64 (offset chunk)) (length chunk)] /\
        forall o l, EvNewSectionDownload o l ∉ drop (List.length (trace s)) pre) /\
     match download_outcome env with
     | DownloadFinished data err =>
       snd res = err /\ logicalChunkData (snd (fst res)) = data
     | StopCalled =>
       snd res = Some (errors_New "repair download interrupted by stop call") /\
       logicalChunkData (snd (fst res)) =
         if bool_decide (localPath chunk = "") then logicalChunkData chunk else []
     end) /\
  (~ local_failed -> forall download,
     let res := managedFetchLogicalChunkData env chunk download s in
     snd res = None /\
     trace (fst (fst res)) =
       trace s ++ [EvOpen (localPath chunk); EvReadAt (localPath chunk) (offset chunk) n] /\
     logicalChunkData (snd (fst res)) =
       read_into (replicate n Byte.x00)
                 (fst (file_ReadAt env (localPath chunk) (offset chunk) n)) /\
     List.length (logicalChunkData (snd (fst res))) = n).
Proof.
  simpl. split.
  - intros Hfail. unfold managedFetchLogicalChunkData, managedDownloadLogicalChunkData.
    rewrite andb_true_r.
    case_bool_decide as Hpath; simpl.
    { split.
      - exists (trace s). split; [by destruct (download_outcome env)|].
        rewrite drop_all. intros o l Hin.
        by apply elem_of_nil in Hin.
      - by destruct (download_outcome env). }
    destruct (os_Open env (localPath chunk)) as [e|] eqn:Hopen; simpl.
    { split.
      - exists (trace s ++ [EvOpen (localPath chunk)]). split; [by destruct (download_outcome env)|].
        rewrite drop_app_length. intros o l Hin.
        apply list_elem_of_singleton in Hin. discriminate.
      - by destruct (download_outcome env). }
    rewrite length_replicate.
    destruct (file_ReadAt env (localPath chunk) (offset chunk) (Z.to_nat (length chunk)))
      as [data [e|]] eqn:Hread; simpl.
    2: { exfalso. destruct Hfail as [?|[?|Hr]]; [done|done|]. exact (Hr eq_refl). }
    split.
    + exists (trace s ++ [EvOpen (localPath chunk);
                          EvReadAt (localPath chunk) (offset chunk) (Z.to_nat (length chunk))]).
      split; [destruct (download_outcome env); simpl; by rewrite <- !app_assoc|].
      rewrite drop_app_length. intros o l Hin.
      apply elem_of_cons in Hin as [Hin|Hin]; [discriminate|].
      apply list_elem_of_singleton in Hin. discriminate.
    + by destruct (download_outcome env).
  - intros Hok download.
    assert (Hpath : localPath chunk <> "") by tauto.
    assert (Hopen : os_Open env (localPath chunk) = None).
    { destruct (os_Open env (localPath chunk)) eqn:Ho; [|done]. exfalso. apply Hok. right; left.
      discriminate. }
    assert (Hread : snd (file_ReadAt env (localPath chunk) (offset chunk)
                           (Z.to_nat (length chunk))) = None).
    { destruct (snd (file_ReadAt _ _ _ _)) eqn:Hr; [|done]. exfalso. apply Hok. right; right.
      discriminate. }
    unfold managedFetchLogicalChunkData.
    rewrite (bool_decide_eq_false_2 _ Hpath); simpl.
    rewrite Hopen, length_replicate.
    destruct (file_ReadAt env (localPath chunk) (offset chunk) (Z.to_nat (length chunk)))
      as [data err]; simpl in *. subst err. simpl.
    split; [done|]. split; [by rewrite <- app_assoc|]. split; [done|].
    by rewrite read_into_length, length_replicate.
Qed.

(** The checked loop, started at index [length pre], agrees with the
    unchecked one as long as a piece is there for every flag. *)
Lemma release_checked_loop usage_rest : forall usage_pre pre rest freed,
  List.length usage_pre = List.length pre ->
  (List.length usage_rest <= List.length rest)%nat ->
  foldl (release_piece_checked (usage_pre ++ usage_rest)) (Some (pre ++ rest, freed))
        (seq (List.length pre) (List.length usage_rest))
  = Some (foldl (release_piece (usage_pre ++ usage_rest)) (pre ++ rest, freed)
                (seq (List.length pre) (List.length usage_rest))).
Proof.
  induction usage_rest as [|u us IH]; intros usage_pre pre rest freed Hpre Hlen; simpl.
  - done.
  - destruct rest as [|p ps]; simpl in Hlen; [lia|].
    assert (Hu : (usage_pre ++ u :: us) !! List.length pre = Some u).
    { rewrite <- Hpre. by rewrite list_lookup_middle. }
    assert (Hp : (pre ++ p :: ps) !! List.length pre = Some p)
      by (by rewrite list_lookup_middle).
    unfold release_piece at 2. simpl. rewrite Hu; simpl.
    destruct u; simpl.
    + rewrite Hp; simpl.
      replace (<[List.length pre := []]> (pre ++ p :: ps)) with (pre ++ [] :: ps).
      2: { replace (List.length pre) with (List.length pre + 0)%nat at 1 by lia.
           by rewrite insert_app_r. }
      specialize (IH (usage_pre ++ [true]) (pre ++ [[]]) ps
                     (wrap_uint64 (freed + Z.of_nat (List.length p)))).
      rewrite !length_app in IH; simpl in IH.
      rewrite <- !app_assoc in IH; simpl in IH.
      replace (List.length pre + 1)%nat with (S (List.length pre)) in IH by lia.
      apply IH; lia.
    + specialize (IH (usage_pre ++ [false]) (pre ++ [p]) ps freed).
      rewrite !length_app in IH; simpl in IH.
      rewrite <- !app_assoc in IH; simpl in IH.
      replace (List.length pre + 1)%nat with (S (List.length pre)) in IH by lia.
      apply IH; lia.
Qed.

(** Once the loop has faulted it stays faulted. *)
Lemma release_checked_faulted usage idxs :
  foldl (release_piece_checked usage) None idxs = None.
Proof. induction idxs as [|i idxs IH]; simpl; done. Qed.

(** The checked loop never changes the number of pieces. *)
Lemma release_checked_length usage idxs : forall pieces freed pieces' freed',
  foldl (release_piece_checked usage) (Some (pieces, freed)) idxs = Some (pieces', freed') ->
  List.length pieces' = List.length pieces.
Proof.
  induction idxs as [|i idxs IH]; intros pieces freed pieces' freed' Hrun; simpl in Hrun.
  - by simplify_eq.
  - destruct (usage !! i) as [[|]|]; simpl in Hrun.
    + destruct (pieces !! i) as [p|]; simpl in Hrun.
      * apply IH in Hrun. by rewrite length_insert in Hrun.
      * by rewrite release_checked_faulted in Hrun.
    + by apply IH in Hrun.
    + by rewrite release_checked_faulted in Hrun.
Qed.

(** The sanity check is what keeps the loop in bounds.  With at least as
    many pieces as piece-usage flags, as the check of line 101 ensures,
    no index of the loop is out of range: the loop with Go's bounds
    checks finishes, with the result of the loop as modelled.  Without
    the check it would not do: a flag set at an index at which there is
    no piece makes the loop fault. *)
Theorem release_loop_in_bounds usage pieces memoryFreed :
  ((List.length usage <= List.length pieces)%nat ->
   release_used_pieces_checked usage pieces memoryFreed
     = Some (release_used_pieces usage pieces memoryFreed)) /\
  (forall i, usage !! i = Some true -> pieces !! i = None ->
   release_used_pieces_checked usage pieces memoryFreed = None).
Proof.
  split.
  - intros Hlen. exact (release_checked_loop usage [] [] pieces memoryFreed eq_refl Hlen).
  - intros i Hflag Hpiece. unfold release_used_pieces_checked.
    assert (Hi : (i < List.length usage)%nat) by (by eapply lookup_lt_Some).
    assert (Hseq : seq 0 (List.length usage)
                   = seq 0 i ++ i :: seq (S i) (List.length usage - S i)).
    { replace (List.length usage) with (i + S (List.length usage - S i))%nat at 1 by lia.
      by rewrite seq_app. }
    rewrite Hseq, foldl_app. simpl.
    destruct (foldl (release_piece_checked usage) (Some (pieces, memoryFreed)) (seq 0 i))
      as [[pieces' freed']|] eqn:Hrun; simpl.
    + apply release_checked_length in Hrun. rewrite Hflag.
      assert (Hnone : pieces' !! i = None).
      { apply lookup_ge_None. rewrite Hrun. by apply lookup_ge_None. }
      rewrite Hnone. apply release_checked_faulted.
    + apply release_checked_faulted.
Qed.

(** No action of the fetch is a log message or part of the hand-over. *)
Lemma fetch_events_plain env chunk download s :
  exists evs,
    trace (fst (fst (managedFetchLogicalChunkData env chunk download s))) = trace s ++ evs /\
    (forall e, e ∈ evs -> is_log e = false /\ is_distribution e = false) /\
    memoryAvailable (fst (fst (managedFetchLogicalChunkData env chunk download s)))
      = memoryAvailable s.
Proof.
  destruct (managedFetchLogicalChunkData_frame env chunk download s)
    as (evs & Htr & Hevs & Hmem & _).
  exists evs. split; [exact Htr|]. split; [|exact Hmem].
  intros e He.
  destruct (Hevs e He) as [(? & ? & -> & _)|[(? & ->)|(? & ? & ? & ->)]]; done.
Qed.

(** How a repair ends.  Every run ends in exactly one of two ways, and
    nothing before its ending is a log message, a memory credit or a
    hand-over to a worker.  If the fetch and the encoding return no error
    and the encoder returned enough pieces, the run ends with one credit
    to the memory accountant followed by the chunk queued with every
    worker of the pool, in the pool's order, and logs nothing.
    Otherwise it ends with exactly one log message, credits nothing,
    queues nothing and leaves the accountant as it was. *)
Theorem repair_ends_one_way env chunk s :
  let res := managedFetchAndRepairChunk env chunk s in
  exists pre ending,
    trace (fst res) = trace s ++ pre ++ ending /\
    (forall e, e ∈ pre -> is_log e = false /\ is_distribution e = false) /\
    if repair_goes_through env chunk s then
      exists freed,
        ending = EvMemoryAvailableAdd freed :: map EvQueueChunkRepair (workerPool env) /\
        memoryAvailable (fst res) = wrap_uint64 (memoryAvailable s + freed)
    else
      (exists log, ending = [log] /\ is_log log = true) /\
      memoryAvailable (fst res) = memoryAvailable s.
Proof.
  simpl. unfold repair_goes_through, managedFetchAndRepairChunk.
  destruct (managedFetchLogicalChunkData_frame env chunk (download_decision chunk) s)
    as (_ & _ & _ & _ & Huse).
  destruct (fetch_events_plain env chunk (download_decision chunk) s) as (evs & Htr & Hevs & Hmem).
  destruct (managedFetchLogicalChunkData env chunk (download_decision chunk) s)
    as [[s1 chunk1] [err|]]; simpl in *.
  { exists evs, [EvLogDebug "Fetching logical data of a chunk failed:" err].
    rewrite Htr, <- app_assoc. split; [done|]. split; [done|]. split; [eauto|done]. }
  assert (Hplain : forall e, e ∈ evs ++ [EvEncode] ->
                     is_log e = false /\ is_distribution e = false).
  { intros e He. apply elem_of_app in He as [He|He]; [by apply Hevs|].
    apply list_elem_of_singleton in He as ->. done. }
  destruct (erasureCode_Encode env (logicalChunkData chunk1)) as [pieces [err|]]; simpl.
  { exists (evs ++ [EvEncode]), [EvLogDebug "Fetching physical data of a chunk failed:" err].
    rewrite Htr, <- !app_assoc. split; [done|]. split; [done|]. split; [eauto|done]. }
  rewrite Huse.
  destruct (Nat.ltb_spec (List.length pieces) (List.length (pieceUsage chunk))) as [Hfew|Hlen].
  - assert (Hleb : (List.length (pieceUsage chunk) <=? List.length pieces)%nat = false)
      by (apply Nat.leb_gt; lia).
    rewrite Hleb.
    exists (evs ++ [EvEncode]),
      [EvLogCritical "not enough physical pieces to match the upload settings of the file"].
    simpl. rewrite Htr, <- !app_assoc. split; [done|]. split; [done|]. split; [eauto|done].
  - assert (Hleb : (List.length (pieceUsage chunk) <=? List.length pieces)%nat = true)
      by (apply Nat.leb_le; lia).
    rewrite Hleb.
    destruct (release_used_pieces (pieceUsage chunk) pieces
                (Z.of_nat (List.length (logicalChunkData chunk1)))) as [pieces' freed]; simpl.
    match goal with |- context [queue_all ?ws ?st] =>
      destruct (queue_all_frame ws st) as [Hq Hqm] end.
    exists (evs ++ [EvEncode]),
      (EvMemoryAvailableAdd freed :: map EvQueueChunkRepair (workerPool env)).
    rewrite Hq, Hqm; simpl. rewrite Htr, Hmem, <- !app_assoc. simpl.
    split; [done|]. split; [done|]. exists freed. done.
Qed.

(** What a repair leaves of the chunk.  Only the two buffers of the
    chunk are ever written: its path, offset, length, piece counts and
    piece-usage flags come out as they went in.  The logical buffer is
    released whenever the encoding has succeeded, also when the sanity
    check then fails, and only then unless the fetch left it empty. *)
Theorem repair_touches_only_buffers env chunk s :
  let fetched := managedFetchLogicalChunkData env chunk (download_decision chunk) s in
  let encoded := erasureCode_Encode env (logicalChunkData (snd (fst fetched))) in
  let chunk' := snd (managedFetchAndRepairChunk env chunk s) in
  (localPath chunk' = localPath chunk /\ offset chunk' = offset chunk /\
   length chunk' = length chunk /\ minimumPieces chunk' = minimumPieces chunk /\
   piecesNeeded chunk' = piecesNeeded chunk /\ piecesCompleted chunk' = piecesCompleted chunk /\
   pieceUsage chunk' = pieceUsage chunk) /\
  (snd fetched <> None ->
     chunk' = snd (fst fetched)) /\
  (snd fetched = None ->
     logicalChunkData chunk' =
       if bool_decide (snd encoded = None) then [] else logicalChunkData (snd (fst fetched))).
Proof.
  simpl. unfold managedFetchAndRepairChunk.
  assert (Hfetch : forall download,
    let c := snd (fst (managedFetchLogicalChunkData env chunk download s)) in
    localPath c = localPath chunk /\ offset c = offset chunk /\ length c = length chunk /\
    minimumPieces c = minimumPieces chunk /\ piecesNeeded c = piecesNeeded chunk /\
    piecesCompleted c = piecesCompleted chunk /\ pieceUsage c = pieceUsage chunk).
  { intros download. unfold managedFetchLogicalChunkData, managedDownloadLogicalChunkData.
    destruct (bool_decide (localPath chunk = "")), download; simpl.
    1: destruct (download_outcome env); simpl; done.
    1: done.
    all: destruct (os_Open env (localPath chunk)); simpl.
    all: try (destruct (download_outcome env); simpl; done).
    all: try done.
    all: destruct (file_ReadAt env _ _ _) as [data [e|]]; simpl.
    all: try (destruct (download_outcome env); simpl; done).
    all: done. }
  specialize (Hfetch (download_decision chunk)). simpl in Hfetch.
  destruct (managedFetchLogicalChunkData env chunk (download_decision chunk) s)
    as [[s1 chunk1] [err|]]; simpl in *.
  { split; [exact Hfetch|]. split; [done|]. intros [=]. }
  destruct (erasureCode_Encode env (logicalChunkData chunk1)) as [pieces [err|]]; simpl.
  { split; [exact Hfetch|]. split; [done|]. done. }
  destruct (_ <? _)%nat; simpl.
  { split; [exact Hfetch|]. split; [done|]. done. }
  destruct (release_used_pieces _ _ _) as [pieces' freed]; simpl.
  split; [exact Hfetch|]. split; [done|]. done.
Qed.

End RepairFurther.

(** * The scenarios, run *)

Section Runs.
Import Proto Scenario.

#[local] Existing Instance Sub0.

(** An honest exchange: the payload comes back, the revision with
    version 6 and 4008 moved to the host is committed, the spending goes
    from 30 to 4038 and the host's success counter to 1. *)
Example Sector_honest_run :
  Sector SectorSize0 MerkleRoot0 hd0 io_ok root0 world0 =
    ({| contractSet :=
          {[ 7%N := {| ID := 7%N; HostPublicKey := "host-1";
                       LastRevision := {| NewRevisionNumber := 6;
                                          NewValidProofOutputs := [5992; 4208] |};
                       LastRevisionTxn := 42%N; MerkleRoots := [[Byte.x0a]];
                       SecretKey := 1%N; DownloadSpending := 4038 |} ]};
        successfulInteractions := {[ "host-1" := 1%N ]};
        failedInteractions := ∅;
        connClosed := false; onceDone := false; closeChanClosed := false;
        trace := [ EvExtendDeadline NegotiateSettingsTime; EvStartDownload;
                   EvSaveFn {| NewRevisionNumber := 6; NewValidProofOutputs := [5992; 4208] |}
                            [[Byte.x0a]];
                   EvExtendDeadline TwoMinutes;
                   EvWriteDownloadAction {| MerkleRoot_ := root0; Offset := 0; Length := 4 |};
                   EvExtendDeadline TwoMinutes;
                   EvNegotiateRevision
                     {| NewRevisionNumber := 6; NewValidProofOutputs := [5992; 4208] |};
                   EvExtendDeadline NegotiateDownloadTime; EvReadSectors;
                   EvExtendDeadline Hour ] |},
     ({| ID := 7%N; HostPublicKey := "host-1";
         LastRevision := {| NewRevisionNumber := 6; NewValidProofOutputs := [5992; 4208] |};
         LastRevisionTxn := 42%N; MerkleRoots := [[Byte.x0a]];
         SecretKey := 1%N; DownloadSpending := 4038 |},
      Some sector0, None)).
Proof. vm_compute. reflexivity. Qed.

(** Scenario C: two blobs instead of one.  "Wrong sector count" error,
    failure counter 1, contract untouched. *)
Lemma Sector_two_blobs_witness :
  (contractSet world0 !! contractID hd0 = Some contract0 /\
   reaches_payload SectorSize0 hd0 io_two_blobs contract0 = true /\
   ReadObject_ret io_two_blobs = inr [sector0; sector0]) /\
  snd (Sector SectorSize0 MerkleRoot0 hd0 io_two_blobs root0 world0) =
    failure (errors_New "host did not send enough sectors") /\
  contractSet (fst (Sector SectorSize0 MerkleRoot0 hd0 io_two_blobs root0 world0)) =
    contractSet world0 /\
  failedInteractions (fst (Sector SectorSize0 MerkleRoot0 hd0 io_two_blobs root0 world0))
    !! "host-1" = Some 1%N.
Proof.
  assert (Hacq : contractSet world0 !! contractID hd0 = Some contract0)
    by (vm_compute; reflexivity).
  assert (Hreach : reaches_payload SectorSize0 hd0 io_two_blobs contract0 = true)
    by (vm_compute; reflexivity).
  assert (Hbad : List.length [sector0; sector0] <> 1%nat \/
     exists s, [sector0; sector0] = [s] /\
       (Z.of_nat (List.length s) <> SectorSize0 \/ MerkleRoot0 s <> root0))
    by (left; simpl; lia).
  destruct (Sector_bad_payload_rejected SectorSize0 MerkleRoot0 hd0 io_two_blobs root0 world0
              contract0 [sector0; sector0] Hacq eq_refl Hreach eq_refl Hbad)
    as (Hcount & _ & _ & _ & Hcs & Hfail & _).
  split; [by repeat split|].
  split; [apply Hcount; simpl; lia|].
  split; [exact Hcs|].
  rewrite Hfail. apply lookup_insert_eq.
Defined.

(** Scenario D: one blob of the right size with the wrong content.  The
    integrity error, with the contract (revision 5, funds 10000, spending
    30) still in the set. *)
Example Sector_bad_hash_run :
  snd (Sector SectorSize0 MerkleRoot0 hd0 io_bad_hash root0 world0) =
    failure (errors_New "host sent bad sector data") /\
  contractSet (fst (Sector SectorSize0 MerkleRoot0 hd0 io_bad_hash root0 world0)) !! 7%N =
    Some contract0 /\
  failedInteractions (fst (Sector SectorSize0 MerkleRoot0 hd0 io_bad_hash root0 world0))
    !! "host-1" = Some 1%N.
Proof. vm_compute. auto. Qed.

(** C3, at a concrete call.  The hook is handed revision 6, the one
    about to be sent, with the contract's current merkle roots; the
    contract's current revision 5 is never saved before the send.  The
    source comment at the call says the old revision is saved as a
    fallback. *)
Lemma Sector_hook_receives_new_revision :
  LastRevision contract0 = {| NewRevisionNumber := 5; NewValidProofOutputs := [10000; 200] |} /\
  trace (fst (Sector SectorSize0 MerkleRoot0 hd0 io_ok root0 world0)) =
    [ EvExtendDeadline NegotiateSettingsTime; EvStartDownload;
      EvSaveFn {| NewRevisionNumber := 6; NewValidProofOutputs := [5992; 4208] |} [[Byte.x0a]];
      EvExtendDeadline TwoMinutes;
      EvWriteDownloadAction {| MerkleRoot_ := root0; Offset := 0; Length := 4 |};
      EvExtendDeadline TwoMinutes;
      EvNegotiateRevision {| NewRevisionNumber := 6; NewValidProofOutputs := [5992; 4208] |};
      EvExtendDeadline NegotiateDownloadTime; EvReadSectors;
      EvExtendDeadline Hour ] /\
  ~ hook_as_specified SectorSize0 MerkleRoot0 hd0 io_ok root0 world0 contract0.
Proof.
  split; [reflexivity|].
  assert (Htr : trace (fst (Sector SectorSize0 MerkleRoot0 hd0 io_ok root0 world0)) =
    [ EvExtendDeadline NegotiateSettingsTime; EvStartDownload;
      EvSaveFn {| NewRevisionNumber := 6; NewValidProofOutputs := [5992; 4208] |} [[Byte.x0a]];
      EvExtendDeadline TwoMinutes;
      EvWriteDownloadAction {| MerkleRoot_ := root0; Offset := 0; Length := 4 |};
      EvExtendDeadline TwoMinutes ] ++
      EvNegotiateRevision {| NewRevisionNumber := 6; NewValidProofOutputs := [5992; 4208] |}
      :: [EvExtendDeadline NegotiateDownloadTime; EvReadSectors; EvExtendDeadline Hour])
    by (vm_compute; reflexivity).
  split; [exact Htr|].
  intros Hspec. specialize (Hspec _ _ _ Htr).
  repeat (apply elem_of_cons in Hspec as [Hspec|Hspec]; [discriminate Hspec|]).
  by apply elem_of_nil in Hspec.
Qed.

(** Without a hook the revision is sent with nothing saved at all. *)
Example Sector_without_hook_run :
  trace (fst (Sector SectorSize0 MerkleRoot0 hd_nohook io_ok root0 world0)) =
    [ EvExtendDeadline NegotiateSettingsTime; EvStartDownload;
      EvExtendDeadline TwoMinutes;
      EvWriteDownloadAction {| MerkleRoot_ := root0; Offset := 0; Length := 4 |};
      EvExtendDeadline TwoMinutes;
      EvNegotiateRevision {| NewRevisionNumber := 6; NewValidProofOutputs := [5992; 4208] |};
      EvExtendDeadline NegotiateDownloadTime; EvReadSectors;
      EvExtendDeadline Hour ].
Proof. vm_compute. reflexivity. Qed.

(** A hook is installed and the call gets past the settings round-trip:
    the hook is called first, with the new revision. *)
Lemma Sector_hook_precedes_revision_witness :
  (contractSet world0 !! contractID hd0 = Some contract0 /\
   funds_suffice SectorSize0 hd0 contract0 = true /\
   startDownload_err io_ok = None) /\
  exists rest,
    trace (fst (Sector SectorSize0 MerkleRoot0 hd0 io_ok root0 world0)) =
      trace world0 ++ EvExtendDeadline NegotiateSettingsTime :: EvStartDownload
        :: EvSaveFn (newDownloadRevision (LastRevision contract0) (sector_price SectorSize0 hd0))
                    (MerkleRoots contract0) :: rest.
Proof.
  assert (Hacq : contractSet world0 !! contractID hd0 = Some contract0)
    by (vm_compute; reflexivity).
  destruct (Sector_hook_precedes_revision SectorSize0 MerkleRoot0 hd0 io_ok root0 world0
              contract0 (fun _ _ => None) Hacq eq_refl eq_refl eq_refl)
    as (rest & Htr & _).
  split; [by repeat split|]. exists rest. exact Htr.
Defined.

(** Two calls on which the reputation rule of the specification fails.
    A contract that cannot pay is turned away with an error that is no
    revision mismatch, and the host's failure counter stays untouched; a
    revision-mismatch error out of the revision negotiation puts the
    failure counter at 1. *)
Lemma Sector_reputation_counterexample :
  ~ reputation_as_specified SectorSize0 MerkleRoot0 hd0 io_ok root0
      (world_with contract_poor) "host-1" /\
  ~ reputation_as_specified SectorSize0 MerkleRoot0 hd0 io_mismatch root0 world0 "host-1".
Proof.
  split.
  - intros Hspec.
    assert (Herr : result_err (snd (Sector SectorSize0 MerkleRoot0 hd0 io_ok root0
                                      (world_with contract_poor))) =
                   Some (errors_New "contract has insufficient funds to support download"))
      by (vm_compute; reflexivity).
    unfold reputation_as_specified in Hspec. rewrite Herr in Hspec. simpl in Hspec.
    destruct Hspec as [Hfail _].
    apply (f_equal (fun m => m !! "host-1")) in Hfail.
    rewrite lookup_insert_eq in Hfail. vm_compute in Hfail. discriminate.
  - intros Hspec.
    assert (Herr : result_err (snd (Sector SectorSize0 MerkleRoot0 hd0 io_mismatch root0 world0)) =
                   Some (revision_mismatch "host revision differs"))
      by (vm_compute; reflexivity).
    unfold reputation_as_specified in Hspec. rewrite Herr in Hspec. simpl in Hspec.
    destruct Hspec as [_ Hfail].
    apply (f_equal (fun m => m !! "host-1")) in Hfail.
    vm_compute in Hfail. discriminate.
Qed.

(** Funds of 4000 are below the inflated price 4008, yet the call is not
    turned away: it succeeds. *)
Lemma Sector_funds_counterexample :
  ~ funds_check_as_specified SectorSize0 MerkleRoot0 hd0 io_ok root0
      (world_with contract_tight) contract_tight.
Proof.
  intros Hspec.
  assert (Hacq : contractSet (world_with contract_tight) !! contractID hd0 = Some contract_tight)
    by (vm_compute; reflexivity).
  assert (Hlt : RenterFunds contract_tight < sector_price SectorSize0 hd0)
    by (vm_compute; reflexivity).
  specialize (Hspec Hacq Hlt). vm_compute in Hspec. discriminate.
Qed.

(** Funds of 4000 against an uninflated price of 4000 and an inflated
    price of 4008: the call succeeds and books 4008 as spent. *)
Lemma Sector_funds_guard_witness :
  (contractSet (world_with contract_tight) !! contractID hd0 = Some contract_tight /\
   Mul64 (DownloadBandwidthPrice (host hd0)) SectorSize0 <= RenterFunds contract_tight /\
   RenterFunds contract_tight < sector_price SectorSize0 hd0) /\
  snd (Sector SectorSize0 MerkleRoot0 hd0 io_ok root0 (world_with contract_tight)) =
    (committed SectorSize0 hd0 io_ok contract_tight, Some sector0, None) /\
  RenterFunds contract_tight = 4000 /\
  DownloadSpending (committed SectorSize0 hd0 io_ok contract_tight)
    = DownloadSpending contract_tight + 4008.
Proof.
  assert (Hacq : contractSet (world_with contract_tight) !! contractID hd0 = Some contract_tight)
    by (vm_compute; reflexivity).
  assert (Hbase : Mul64 (DownloadBandwidthPrice (host hd0)) SectorSize0
                  <= RenterFunds contract_tight) by (vm_compute; discriminate).
  assert (Hshort : RenterFunds contract_tight < sector_price SectorSize0 hd0)
    by (vm_compute; reflexivity).
  assert (Hpay : reaches_payload SectorSize0 hd0 io_ok contract_tight = true)
    by (vm_compute; reflexivity).
  assert (Hlen : Z.of_nat (List.length sector0) = SectorSize0) by reflexivity.
  destruct (Sector_funds_guard_admits_shortfall SectorSize0 MerkleRoot0 hd0 io_ok root0
              (world_with contract_tight) contract_tight Hacq Hbase Hshort) as [_ Hgood].
  destruct (Hgood Hpay sector0 eq_refl Hlen eq_refl) as (Hres & _ & Hspend & _).
  split; [by repeat split|]. split; [exact Hres|]. split; [reflexivity|exact Hspend].
Defined.

(** Funds of 3999 are below the uninflated price 4000: turned away with
    nothing sent. *)
Lemma Sector_funds_check_witness :
  (contractSet (world_with contract_poor) !! contractID hd0 = Some contract_poor /\
   ID contract_poor = contractID hd0 /\
   RenterFunds contract_poor < Mul64 (DownloadBandwidthPrice (host hd0)) SectorSize0) /\
  snd (Sector SectorSize0 MerkleRoot0 hd0 io_ok root0 (world_with contract_poor)) =
    failure (errors_New "contract has insufficient funds to support download") /\
  trace (fst (Sector SectorSize0 MerkleRoot0 hd0 io_ok root0 (world_with contract_poor))) =
    trace (world_with contract_poor) ++ [EvExtendDeadline Hour].
Proof.
  assert (Hacq : contractSet (world_with contract_poor) !! contractID hd0 = Some contract_poor)
    by (vm_compute; reflexivity).
  assert (Hlt : RenterFunds contract_poor < Mul64 (DownloadBandwidthPrice (host hd0)) SectorSize0)
    by (vm_compute; reflexivity).
  destruct (Sector_funds_check SectorSize0 MerkleRoot0 hd0 io_ok root0
              (world_with contract_poor) contract_poor Hacq eq_refl) as [Hlow _].
  destruct (Hlow Hlt) as (Hres & Htr & _).
  split; [by repeat split|]. split; [exact Hres|exact Htr].
Defined.

(** The stand-in of the scenarios is subtraction where the amount taken
    is covered. *)
Lemma Sub0_exact : Sub_exact.
Proof. intros x y Hcover. unfold Sub, Sub0. lia. Qed.


(** Three calls of [Close] on a new session: all return, the shutdown
    steps happen once. *)
Lemma Close_idempotent_witness :
  (onceDone session0 = false -> closeChanClosed session0 = false) /\
  List.length (snd (Close_times 3 session0)) = 3%nat /\
  Forall (fun r => r <> Panicked) (snd (Close_times 3 session0)) /\
  trace (fst (Close_times 3 session0)) =
    [ EvExtendDeadline NegotiateSettingsTime; EvVerifySettings; EvWriteNegotiationStop;
      EvCloseChan; EvConnClose; EvConnClose; EvConnClose ].
Proof.
  assert (Hinv : onceDone session0 = false -> closeChanClosed session0 = false)
    by reflexivity.
  destruct (Close_idempotent 3 session0 Hinv) as (Hlen & Hok & _).
  split; [exact Hinv|]. split; [exact Hlen|]. split; [exact Hok|].
  vm_compute. reflexivity.
Defined.

(** Scenario A: 9 of 10 pieces completed, threshold 1, local-only read. *)
Lemma repair_download_decision_witness :
  (- 2 ^ 62 < Renter.piecesNeeded chunk_A < 2 ^ 62 /\
   - 2 ^ 62 < Renter.minimumPieces chunk_A < 2 ^ 62 /\
   - 2 ^ 62 < Renter.piecesCompleted chunk_A < 2 ^ 62) /\
  Renter.minMissingPiecesToDownload chunk_A = 1 /\
  Renter.download_decision chunk_A = false.
Proof.
  assert (Hn : - 2 ^ 62 < Renter.piecesNeeded chunk_A < 2 ^ 62) by (simpl; lia).
  assert (Hm : - 2 ^ 62 < Renter.minimumPieces chunk_A < 2 ^ 62) by (simpl; lia).
  assert (Hc : - 2 ^ 62 < Renter.piecesCompleted chunk_A < 2 ^ 62) by (simpl; lia).
  destruct (repair_download_decision env_two_pieces chunk_A state0 Hn Hm Hc)
    as (_ & Hthr & _ & _ & Hscen).
  split; [by repeat split|]. split; [exact Hthr|].
  destruct (Hscen eq_refl eq_refl) as [HA _]. exact (HA eq_refl).
Defined.

(** Scenario B: 7 of 10 pieces completed, network fetch; the download
    is the first thing the repair does. *)
Example repair_scenario_B_run :
  Renter.download_decision chunk_B = true /\
  Renter.trace (fst (Renter.managedFetchAndRepairChunk env_two_pieces chunk_B state0)) =
    [ Renter.EvNewSectionDownload 0 4; Renter.EvEncode;
      Renter.EvLogCritical "not enough physical pieces to match the upload settings of the file" ].
Proof. vm_compute. auto. Qed.

(** Scenario A with no local copy: the repair gives up without touching
    the network. *)
Example repair_scenario_A_run :
  Renter.managedFetchAndRepairChunk env_two_pieces chunk_A state0 =
    ({| Renter.memoryAvailable := 1000;
        Renter.trace := [ Renter.EvLogDebug "Fetching logical data of a chunk failed:"
                            (errors_New "file not available locally") ] |},
     chunk_A).
Proof. vm_compute. reflexivity. Qed.

(** A local file that cannot be opened, with downloads not allowed: the
    cause is handed back, extended. *)
Example fetch_open_failure_run :
  Renter.managedFetchLogicalChunkData env_no_file chunk_local false state0 =
    ({| Renter.memoryAvailable := 1000;
        Renter.trace := [ Renter.EvOpen "/home/user/file.dat" ] |},
     Renter.set_logicalChunkData [Byte.x00; Byte.x00; Byte.x00; Byte.x00] chunk_local,
     Some (errors_Extend (collaborator_error "no such file or directory")
                         (errors_New "failed to open file locally"))).
Proof. vm_compute. reflexivity. Qed.

(** Four bytes read from disk, two pieces encoded for three flags: the
    buffer is gone, the accountant still says 1000. *)
Lemma repair_sanity_failure_witness :
  (exists s1 chunk1,
     Renter.managedFetchLogicalChunkData env_two_pieces chunk_local
       (Renter.download_decision chunk_local) state0 = (s1, chunk1, None) /\
     Renter.logicalChunkData chunk1 = sector0 /\
     Renter.erasureCode_Encode env_two_pieces (Renter.logicalChunkData chunk1)
       = ([sector0; sector0], None)) /\
  Renter.logicalChunkData (snd (Renter.managedFetchAndRepairChunk env_two_pieces chunk_local state0))
    = [] /\
  Renter.memoryAvailable (fst (Renter.managedFetchAndRepairChunk env_two_pieces chunk_local state0))
    = 1000 /\
  Renter.trace (fst (Renter.managedFetchAndRepairChunk env_two_pieces chunk_local state0)) =
    [ Renter.EvOpen "/home/user/file.dat"; Renter.EvReadAt "/home/user/file.dat" 8 4;
      Renter.EvEncode;
      Renter.EvLogCritical "not enough physical pieces to match the upload settings of the file" ].
Proof.
  set (fetched := Renter.managedFetchLogicalChunkData env_two_pieces chunk_local
                    (Renter.download_decision chunk_local) state0).
  assert (Hfetch : fetched = (fst (fst fetched), snd (fst fetched), None))
    by (vm_compute; reflexivity).
  assert (Henc : Renter.erasureCode_Encode env_two_pieces
                   (Renter.logicalChunkData (snd (fst fetched))) = ([sector0; sector0], None))
    by (vm_compute; reflexivity).
  assert (Hfew : (List.length [sector0; sector0] < List.length (Renter.pieceUsage chunk_local))%nat)
    by (simpl; lia).
  destruct (repair_sanity_failure_no_credit env_two_pieces chunk_local state0
              _ _ _ Hfetch Henc Hfew) as (Hbuf & _ & Hmem & _).
  split.
  { exists (fst (fst fetched)), (snd (fst fetched)).
    split; [exact Hfetch|]. split; [vm_compute; reflexivity|exact Henc]. }
  split; [exact Hbuf|]. split; [exact Hmem|].
  vm_compute. reflexivity.
Defined.

(** Scenario B with three pieces encoded: 4 bytes of logical data and
    two flagged pieces of 4 bytes are credited, 1000 + 12, and both
    workers get the chunk. *)
Lemma repair_success_witness :
  (exists s1 chunk1,
     Renter.managedFetchLogicalChunkData env_no_file chunk_B
       (Renter.download_decision chunk_B) state0 = (s1, chunk1, None) /\
     Renter.erasureCode_Encode env_no_file (Renter.logicalChunkData chunk1)
       = ([sector0; sector0; sector0], None)) /\
  Renter.physicalChunkData (snd (Renter.managedFetchAndRepairChunk env_no_file chunk_B state0))
    = [[]; sector0; []] /\
  Renter.logicalChunkData (snd (Renter.managedFetchAndRepairChunk env_no_file chunk_B state0))
    = [] /\
  fst (Renter.managedFetchAndRepairChunk env_no_file chunk_B state0) =
    {| Renter.memoryAvailable := 1012;
       Renter.trace := [ Renter.EvNewSectionDownload 0 4; Renter.EvEncode;
                         Renter.EvMemoryAvailableAdd 12;
                         Renter.EvQueueChunkRepair 1%N; Renter.EvQueueChunkRepair 2%N ] |}.
Proof.
  set (fetched := Renter.managedFetchLogicalChunkData env_no_file chunk_B
                    (Renter.download_decision chunk_B) state0).
  assert (Hfetch : fetched = (fst (fst fetched), snd (fst fetched), None))
    by (vm_compute; reflexivity).
  assert (Henc : Renter.erasureCode_Encode env_no_file
                   (Renter.logicalChunkData (snd (fst fetched)))
                 = ([sector0; sector0; sector0], None))
    by (vm_compute; reflexivity).
  assert (Hlen : (List.length (Renter.pieceUsage chunk_B)
                  <= List.length [sector0; sector0; sector0])%nat)
    by (simpl; lia).
  destruct (repair_success_credits_memory env_no_file chunk_B state0 _ _ _ Hfetch Henc Hlen)
    as (Hbuf & Hpieces & _).
  split.
  { exists (fst (fst fetched)), (snd (fst fetched)). split; [exact Hfetch|exact Henc]. }
  split; [exact Hpieces|]. split; [exact Hbuf|].
  vm_compute. reflexivity.
Defined.

(** Construction against a host that reports a different recent
    revision: the error is a revision mismatch, no downloader is
    returned, and neither counter of the host moves. *)
Example NewDownloader_mismatch_run :
  let res := NewDownloader SectorSize0 Error0 {| DownloadBandwidthPrice := 1000 |} 7%N
               dial_mismatch world0 in
  snd res = Some (revision_mismatch "host revision differs") /\
  snd (fst res) = None /\
  successfulInteractions (fst (fst res)) = ∅ /\
  failedInteractions (fst (fst res)) = ∅ /\
  trace (fst (fst res)) =
    [ EvDial; EvExtendDeadline NegotiateRecentRevisionTime; EvWriteRPCDownload;
      EvVerifyRecentRevision; EvConnClose; EvCloseChan; EvExtendDeadline Hour ].
Proof. vm_compute. auto 10. Qed.

(** Construction against an agreeing host, then a download, then two
    calls of [Close]: nothing faults, and the host has two successful
    interactions. *)
Example session_run :
  let built := NewDownloader SectorSize0 Error0 {| DownloadBandwidthPrice := 1000 |} 7%N
                 dial_ok world0 in
  let fetched := Sector SectorSize0 MerkleRoot0 hd0 io_ok root0 (fst (fst built)) in
  let closed := Close_times 2 (fst fetched) in
  snd built = None /\
  snd (fst built) = Some hd_nohook /\
  snd fetched = (committed SectorSize0 hd0 io_ok contract0, Some sector0, None) /\
  snd closed = [Returned None;
                Returned (Some (collaborator_error "use of closed network connection"))] /\
  successfulInteractions (fst closed) = {[ "host-1" := 2%N ]} /\
  failedInteractions (fst closed) = ∅.
Proof. vm_compute. auto 10. Qed.

(** The contract set of the scenarios files its contract under its id. *)
Lemma world_with_wf c : Session.ContractSet_wf (world_with c).
Proof.
  intros id c' Hc'. simpl in Hc'. apply lookup_singleton_Some in Hc' as [<- <-]. done.
Qed.

(** A blob with the wrong content: the call fails and the contract set
    is the one before the call. *)
Lemma Sector_failure_is_atomic_witness :
  (Session.ContractSet_wf world0 /\
   result_err (snd (Sector SectorSize0 MerkleRoot0 hd0 io_bad_hash root0 world0)) <> None) /\
  contractSet (fst (Sector SectorSize0 MerkleRoot0 hd0 io_bad_hash root0 world0))
    = contractSet world0 /\
  successfulInteractions (fst (Sector SectorSize0 MerkleRoot0 hd0 io_bad_hash root0 world0))
    = ∅ /\
  snd (Sector SectorSize0 MerkleRoot0 hd0 io_bad_hash root0 world0)
    = failure (errors_New "host sent bad sector data").
Proof.
  assert (Hwf : Session.ContractSet_wf world0) by exact (world_with_wf contract0).
  assert (Herr : result_err (snd (Sector SectorSize0 MerkleRoot0 hd0 io_bad_hash root0 world0))
                 <> None) by (vm_compute; discriminate).
  destruct (Sector_failure_is_atomic SectorSize0 MerkleRoot0 hd0 io_bad_hash root0 world0
              Hwf Herr) as (Hcs & Hsucc & _).
  split; [by split|]. split; [exact Hcs|]. split; [exact Hsucc|].
  vm_compute. reflexivity.
Defined.

(** The host stops after the revision: the sector is returned as from an
    honest host, and the connection is closed before the deadline
    reset. *)
Lemma Sector_graceful_stop_witness :
  snd (negotiateRevision_ret io_stop) = Some ErrStopResponse /\
  snd (Sector SectorSize0 MerkleRoot0 hd0 io_stop root0 world0) =
    snd (Sector SectorSize0 MerkleRoot0 hd0 io_ok root0 world0) /\
  contractSet (fst (Sector SectorSize0 MerkleRoot0 hd0 io_stop root0 world0)) =
    contractSet (fst (Sector SectorSize0 MerkleRoot0 hd0 io_ok root0 world0)) /\
  connClosed (fst (Sector SectorSize0 MerkleRoot0 hd0 io_stop root0 world0)) = true /\
  exists pre,
    trace (fst (Sector SectorSize0 MerkleRoot0 hd0 io_ok root0 world0))
      = pre ++ [EvExtendDeadline Hour] /\
    trace (fst (Sector SectorSize0 MerkleRoot0 hd0 io_stop root0 world0))
      = pre ++ [EvConnClose; EvExtendDeadline Hour].
Proof.
  assert (Hstop : snd (negotiateRevision_ret io_stop) = Some ErrStopResponse) by reflexivity.
  assert (Hacq : contractSet world0 !! contractID hd0 = Some contract0)
    by (vm_compute; reflexivity).
  assert (Hex : reaches_exchange SectorSize0 hd0 io_stop contract0 = true)
    by (vm_compute; reflexivity).
  destruct (Sector_graceful_stop_transparent SectorSize0 MerkleRoot0 hd0 io_stop root0 world0
              Hstop) as (Hres & Hcs & _ & _ & Hconn).
  destruct (Hconn contract0 Hacq Hex) as (Hclosed & pre & Hplain & Hstopped).
  split; [exact Hstop|]. split; [exact Hres|]. split; [exact Hcs|]. split; [exact Hclosed|].
  exists pre. split; [exact Hplain|exact Hstopped].
Defined.

(** A revision mismatch reported by the negotiation is the error of the
    call. *)
Lemma Sector_error_origin_witness :
  result_err (snd (Sector SectorSize0 MerkleRoot0 hd0 io_mismatch root0 world0))
    = Some (revision_mismatch "host revision differs") /\
  (revision_mismatch "host revision differs" ∈ Sector_errors \/
   startDownload_err io_mismatch = Some (revision_mismatch "host revision differs") \/
   (exists c, contractSet world0 !! contractID hd0 = Some c /\
              hook_answer SectorSize0 hd0 c = Some (revision_mismatch "host revision differs")) \/
   WriteObject_err io_mismatch = Some (revision_mismatch "host revision differs") \/
   (snd (negotiateRevision_ret io_mismatch) = Some (revision_mismatch "host revision differs") /\
    revision_mismatch "host revision differs" <> ErrStopResponse) \/
   ReadObject_ret io_mismatch = inl (revision_mismatch "host revision differs")).
Proof.
  assert (Herr : result_err (snd (Sector SectorSize0 MerkleRoot0 hd0 io_mismatch root0 world0))
                 = Some (revision_mismatch "host revision differs"))
    by (vm_compute; reflexivity).
  split; [exact Herr|].
  exact (Sector_error_origin SectorSize0 MerkleRoot0 hd0 io_mismatch root0 world0 _ Herr).
Defined.

(** Construction against a host that reports a different revision: the
    error comes back unchanged, the contract set stays, and the
    connection and the watcher's channel are closed. *)
Lemma NewDownloader_outcomes_witness :
  (contractSet world0 !! 7%N = Some contract0 /\
   List.length (NewValidProofOutputs (LastRevision contract0)) = 2%nat /\
   (Cmp (RenterFunds contract0) (Mul64 (DownloadBandwidthPrice host0) SectorSize0) <? 0) = false) /\
  contractSet (fst (fst (NewDownloader SectorSize0 Error0 host0 7%N dial_mismatch world0)))
    = contractSet world0 /\
  snd (NewDownloader SectorSize0 Error0 host0 7%N dial_mismatch world0)
    = Some (revision_mismatch "host revision differs") /\
  connClosed (fst (fst (NewDownloader SectorSize0 Error0 host0 7%N dial_mismatch world0))) = true /\
  closeChanClosed (fst (fst (NewDownloader SectorSize0 Error0 host0 7%N dial_mismatch world0)))
    = true.
Proof.
  assert (Hacq : contractSet world0 !! 7%N = Some contract0) by (vm_compute; reflexivity).
  assert (Hlen : List.length (NewValidProofOutputs (LastRevision contract0)) = 2%nat)
    by reflexivity.
  assert (Hfunds : (Cmp (RenterFunds contract0)
                      (Mul64 (DownloadBandwidthPrice host0) SectorSize0) <? 0) = false)
    by (vm_compute; reflexivity).
  destruct (NewDownloader_outcomes SectorSize0 Error0 host0 7%N dial_mismatch world0 contract0
              Hacq Hlen Hfunds) as (Hcs & _ & _ & Hrev & Hfail & _).
  pose proof (Hrev eq_refl eq_refl _ eq_refl) as Herr.
  assert (Hsome : snd (NewDownloader SectorSize0 Error0 host0 7%N dial_mismatch world0) <> None)
    by (rewrite Herr; discriminate).
  destruct (Hfail eq_refl Hsome) as (Hconn & Hchan & _).
  split; [by repeat split|]. split; [exact Hcs|]. split; [exact Herr|].
  split; [exact Hconn|exact Hchan].
Defined.

(** Construction against an agreeing host, then a first call: it finds
    contract 7 and starts the settings round-trip. *)
Lemma NewDownloader_then_Sector_witness :
  snd (NewDownloader SectorSize0 Error0 host0 7%N dial_ok world0) = None /\
  exists hd c,
    snd (fst (NewDownloader SectorSize0 Error0 host0 7%N dial_ok world0)) = Some hd /\
    contractSet (fst (fst (NewDownloader SectorSize0 Error0 host0 7%N dial_ok world0)))
      !! contractID hd = Some c /\
    funds_suffice SectorSize0 hd c = true /\
    exists rest,
      trace (fst (Sector SectorSize0 MerkleRoot0 hd io_ok root0
                    (fst (fst (NewDownloader SectorSize0 Error0 host0 7%N dial_ok world0))))) =
        trace (fst (fst (NewDownloader SectorSize0 Error0 host0 7%N dial_ok world0)))
          ++ EvExtendDeadline NegotiateSettingsTime :: EvStartDownload :: rest.
Proof.
  assert (Hok : snd (NewDownloader SectorSize0 Error0 host0 7%N dial_ok world0) = None)
    by (vm_compute; reflexivity).
  split; [exact Hok|].
  exact (NewDownloader_then_Sector SectorSize0 MerkleRoot0 Error0 host0 7%N dial_ok world0
           io_ok root0 Hok).
Defined.


(** The same five calls: contract 7 is still the only contract, and the
    host has gained two successful and one failed interaction. *)
Lemma session_keeps_registries_witness :
  Session.ContractSet_wf session0 /\
  Session.ContractSet_wf (fst (Session.run_ops SectorSize0 MerkleRoot0 ops0 session0)) /\
  dom (contractSet (fst (Session.run_ops SectorSize0 MerkleRoot0 ops0 session0)))
    = dom (contractSet session0) /\
  successfulInteractions (fst (Session.run_ops SectorSize0 MerkleRoot0 ops0 session0))
    = {[ "host-1" := 2%N ]} /\
  failedInteractions (fst (Session.run_ops SectorSize0 MerkleRoot0 ops0 session0))
    = {[ "host-1" := 1%N ]}.
Proof.
  assert (Hwf : Session.ContractSet_wf session0) by exact (world_with_wf contract0).
  destruct (session_keeps_registries SectorSize0 MerkleRoot0 ops0 session0 Hwf)
    as (Hwf' & Hdom & _).
  split; [exact Hwf|]. split; [exact Hwf'|]. split; [exact Hdom|].
  split; vm_compute; reflexivity.
Defined.

(** Scenario B by the rule: redundancy 4, three pieces missing, and
    4 < 4 * 3. *)
Lemma download_rule_witness :
  (0 <= Renter.minimumPieces chunk_B <= Renter.piecesNeeded chunk_B /\
   Renter.piecesNeeded chunk_B < 2 ^ 62 /\
   0 <= Renter.piecesCompleted chunk_B < 2 ^ 62) /\
  Renter.download_decision chunk_B = true.
Proof.
  assert (Hm : 0 <= Renter.minimumPieces chunk_B <= Renter.piecesNeeded chunk_B)
    by (simpl; lia).
  assert (Hn : Renter.piecesNeeded chunk_B < 2 ^ 62) by (simpl; lia).
  assert (Hc : 0 <= Renter.piecesCompleted chunk_B < 2 ^ 62) by (simpl; lia).
  destruct (download_rule_quarter_of_redundancy chunk_B Hm Hn Hc) as (Hrule & _).
  split; [by repeat split|]. apply Hrule. simpl. lia.
Defined.

End Runs.
